(** * mumdex utility: the X11 graph viewport (x11plot.h) and randomize_order

    A shallow embedding of the range/zoom model, the coordinate transforms,
    the Radio toggle control, the Click classification, the view history and
    the movie loop of [src/utility/x11plot.h], and of the [main] of
    [src/utility/randomize_order.cpp].

    C++ [double] arithmetic is reached through the interface [Double],
    whose instance is IEEE binary64 (Rocq's primitive floats, the arithmetic
    the program uses); what the proofs need of the arithmetic is stated as
    laws of the interface, and the laws are proved of binary64. *)

From Stdlib Require Import ZArith QArith Floats Uint63.
From Stdlib Require Import List Bool Lia Permutation String Ascii.
Import ListNotations.

Set Implicit Arguments.

Close Scope Q_scope.

(* ================================================================== *)
(** * Arithmetic of [double] *)
(* ================================================================== *)

(** The operations the source applies to doubles.  [of_int] is the implicit
    int-to-double conversion, [to_int] the double-to-int conversion of an
    initialisation or a [return] into an [int] (truncation toward zero). *)
Class Double (D : Type) : Type := {
  dadd : D -> D -> D;
  dsub : D -> D -> D;
  dmul : D -> D -> D;
  ddiv : D -> D -> D;
  dabs : D -> D;                (* fabs *)
  dlt : D -> D -> bool;         (* a < b *)
  dle : D -> D -> bool;         (* a <= b *)
  deq : D -> D -> bool;         (* a == b *)
  isfinite : D -> bool;         (* std::isfinite *)
  of_int : Z -> D;
  to_int : D -> Z
}.

(** Square root, used by [PointT::distance] only. *)
Class DoubleSqrt (D : Type) : Type := {
  dsqrt : D -> D
}.

Declare Scope dbl_scope.
Delimit Scope dbl_scope with dbl.
Infix "+" := dadd : dbl_scope.
Infix "-" := dsub : dbl_scope.
Infix "*" := dmul : dbl_scope.
Infix "/" := ddiv : dbl_scope.
Infix "<?" := dlt : dbl_scope.
Infix "<=?" := dle : dbl_scope.
Infix "=?" := deq : dbl_scope.

(** C++ spells [a > b] and [a >= b]; they are the mirrored tests. *)
Definition dgt {D} `{Double D} (a b : D) : bool := dlt b a.
Definition dge {D} `{Double D} (a b : D) : bool := dle b a.
Infix ">?" := dgt (at level 70) : dbl_scope.
Infix ">=?" := dge (at level 70) : dbl_scope.

(** A decimal literal [n/d] of the source.  Both [n] and [d] are below
    [2^53], so on binary64 the correctly rounded quotient is the double the
    compiler reads the literal as. *)
Definition lit {D} `{Double D} (q : Q) : D :=
  ddiv (of_int (Qnum q)) (of_int (Zpos (Qden q))).

(** [std::max(a, b)] is [(a < b) ? b : a]; [std::min(a, b)] is
    [(b < a) ? b : a]. *)
Definition std_max {D} `{Double D} (a b : D) : D := if dlt a b then b else a.
Definition std_min {D} `{Double D} (a b : D) : D := if dlt b a then b else a.

(** A value that is a number: [x == x], false of NaN only. *)
Definition is_num {D} `{Double D} (x : D) : Prop := deq x x = true.

(** ** IEEE binary64 *)

Module B64.

Definition int_to_double (z : Z) : float :=
  match z with
  | Z0 => PrimFloat.zero
  | Zpos _ => PrimFloat.of_uint63 (Uint63.of_Z z)
  | Zneg p => PrimFloat.opp (PrimFloat.of_uint63 (Uint63.of_Z (Zpos p)))
  end.

(** Truncation toward zero of a finite double; the conversion of a NaN,
    an infinity or a value outside [int] is undefined in C++, and is
    given the value 0 here. *)
Definition double_to_int (f : float) : Z :=
  match Prim2SF f with
  | S754_finite s m e =>
      let a := if (0 <=? e)%Z then Z.shiftl (Zpos m) e
               else Z.shiftr (Zpos m) (- e) in
      if s then (- a)%Z else a
  | _ => 0%Z
  end.

#[global] Instance ops : Double float := {|
  dadd := PrimFloat.add;
  dsub := PrimFloat.sub;
  dmul := PrimFloat.mul;
  ddiv := PrimFloat.div;
  dabs := PrimFloat.abs;
  dlt := PrimFloat.ltb;
  dle := PrimFloat.leb;
  deq := PrimFloat.eqb;
  isfinite := PrimFloat.is_finite;
  of_int := int_to_double;
  to_int := double_to_int
|}.

#[global] Instance sqrt_ops : DoubleSqrt float := {|
  dsqrt := PrimFloat.sqrt
|}.

(** [std::numeric_limits<double>::max()] and [lowest()]. *)
Definition dbl_max : float := 0x1.fffffffffffffp1023%float.
Definition dbl_lowest : float := (- 0x1.fffffffffffffp1023)%float.

End B64.

(* ================================================================== *)
(** * What the graph takes from utility.h *)
(* ================================================================== *)

(** [utility.h] is not among the sources.  What the graph uses of it is
    taken as a parameter: the sentinels [unset(1.0)] and [nunset(1.0)] that
    [get_range] starts a minimum and a maximum from, and the comparison
    [dne] of two doubles. *)
Class Utility (D : Type) : Type := {
  unset : D;
  nunset : D;
  dne : D -> D -> bool
}.

(** On binary64: the largest and the lowest finite double, and [dne] as
    "less or greater". *)
#[global] Instance B64_utility : Utility float := {|
  unset := B64.dbl_max;
  nunset := B64.dbl_lowest;
  dne := fun a b => PrimFloat.ltb a b || PrimFloat.ltb b a
|}.

(* ================================================================== *)
(** * Points, events and the Click classification *)
(* ================================================================== *)

Record PointT (T : Type) : Type := mkPoint { pt_x : T; pt_y : T }.

(** [operator[](bool y)]. *)
Definition pt_at T (p : PointT T) (y : bool) : T :=
  if y then pt_y p else pt_x p.

Definition Point : Type := PointT Z.

(** The fields of an [XButtonEvent] the graph reads. *)
Record XButtonEvent : Type := mkButtonEvent {
  ev_x : Z;
  ev_y : Z;
  ev_button : Z;
  ev_state : Z
}.

Definition ev_point (e : XButtonEvent) : Point := mkPoint (ev_x e) (ev_y e).

(** Constants of [X11/X.h]. *)
Definition Button1 : Z := 1.
Definition Button2 : Z := 2.
Definition Button3 : Z := 3.
Definition Button4 : Z := 4.
Definition Button5 : Z := 5.
Definition ShiftMask : Z := 1.
Definition LockMask : Z := 2.
Definition ControlMask : Z := 4.

(** [event.state & Mask] used as a condition. *)
Definition has_mask (state mask : Z) : bool := negb (Z.land state mask =? 0)%Z.

Record Click : Type := mkClick {
  click_point : Point;
  click_value : Z
}.

(** [Click::operator=(const XButtonEvent &)]. *)
Definition Click_assign (event : XButtonEvent) : Click :=
  mkClick (ev_point event)
    (if (ev_button event =? Button2)%Z || has_mask (ev_state event) ShiftMask
     then 2
     else if (ev_button event =? Button3)%Z
             || has_mask (ev_state event) ControlMask
     then 3
     else if (ev_button event =? Button1)%Z
     then 1
     else 0)%Z.

(** [Click::reset]. *)
Definition Click_reset (c : Click) : Click := mkClick (click_point c) 0%Z.

(** The classes the specification names. *)
Inductive ClickClass : Type :=
  | NoClass | CenterClass | ScrollClass | ZoomClass.

Definition class_of_value (v : Z) : ClickClass :=
  if (v =? 1)%Z then CenterClass
  else if (v =? 2)%Z then ScrollClass
  else if (v =? 3)%Z then ZoomClass
  else NoClass.

(* ================================================================== *)
(** * Window geometry *)
(* ================================================================== *)

(** One row of [iBounds]: [bounds[y][0]], [bounds[y][1]], [bounds[y][2]]. *)
Record IBound : Type := mkIBound { b_low : Z; b_high : Z; b_extent : Z }.

(** The members of [X11WindowT] the graph and its radios read. *)
Record X11Win : Type := mkWin {
  bounds : PointT IBound;
  size_ : PointT Z;
  inside : bool;
  just_configured : bool
}.

Definition width (w : X11Win) : Z := pt_x (size_ w).
Definition height (w : X11Win) : Z := pt_y (size_ w).
Definition extent (w : X11Win) (y : bool) : Z := pt_at (size_ w) y.
Definition bounds_at (w : X11Win) (y : bool) : IBound := pt_at (bounds w) y.

(** [set_bounds(y, l, h)] and [set_bounds(xl, xh, yl, yh)]. *)
Definition set_bounds (w : X11Win) (xl xh yl yh : Z) : X11Win :=
  mkWin (mkPoint (mkIBound xl xh (xh - xl)) (mkIBound yl yh (yh - yl)))
        (size_ w) (inside w) (just_configured w).

Definition set_just_configured (w : X11Win) (b : bool) : X11Win :=
  mkWin (bounds w) (size_ w) (inside w) b.

(** [in_bounds(x, y)]: strictly inside the plot rectangle. *)
Definition in_bounds (w : X11Win) (p : Point) : bool :=
  ((b_low (bounds_at w false) <? pt_x p) && (pt_x p <? b_high (bounds_at w false))
   && (b_low (bounds_at w true) <? pt_y p) && (pt_y p <? b_high (bounds_at w true)))%Z.

(** [X11Graph::get_quadrant]: integer arithmetic, division truncating. *)
Definition get_quadrant (w : X11Win) (p : Point) : Z :=
  let bx := bounds_at w false in
  let by_ := bounds_at w true in
  let below_pos :=
    (b_high by_ + Z.quot ((pt_x p - b_low bx) * (b_low by_ - b_high by_))
                         (b_high bx - b_low bx) <? pt_y p)%Z in
  let below_neg :=
    (b_low by_ + Z.quot ((pt_x p - b_low bx) * (b_high by_ - b_low by_))
                        (b_high bx - b_low bx) <? pt_y p)%Z in
  if below_pos then (if below_neg then 0 else 3)%Z
  else (if below_neg then 1 else 2)%Z.

(* ================================================================== *)
(** * The Radio toggle control *)
(* ================================================================== *)

Section RadioModel.

Context {D : Type} `{Double D} `{DoubleSqrt D}.
Local Open Scope dbl_scope.

(** [PointT<int>::distance]: the squares are computed on [int]. *)
Definition distance (p q : Point) : D :=
  dsqrt (of_int ((pt_x p - pt_x q) * (pt_x p - pt_x q)
                 + (pt_y p - pt_y q) * (pt_y p - pt_y q))).

(** The data members of [Radio] that its press and release logic reads
    or writes; the description, the graphics context and the id are
    presentation only. *)
Record Radio : Type := mkRadio {
  specification : PointT D;
  togglable : bool;
  toggled : bool;
  skip_release : bool;
  radius_scale : D
}.

Definition set_toggled (r : Radio) (b : bool) : Radio :=
  mkRadio (specification r) (togglable r) b (skip_release r) (radius_scale r).

Definition set_skip_release (r : Radio) (b : bool) : Radio :=
  mkRadio (specification r) (togglable r) (toggled r) b (radius_scale r).

(** [Radio::corner]. *)
Definition corner (w : X11Win) (high_x high_y : bool) : Point :=
  mkPoint (if high_x then b_high (bounds_at w false) else b_low (bounds_at w false))
          (if high_y then b_high (bounds_at w true) else b_low (bounds_at w true)).

(** [Radio::min_border]; the four-argument [min] is the least of its
    arguments. *)
Definition radio_min_border (w : X11Win) : Z :=
  Z.min (Z.min (b_low (bounds_at w false)) (b_low (bounds_at w true)))
        (Z.min (width w - b_high (bounds_at w false))
               (height w - b_high (bounds_at w true))).

(** One coordinate of [Radio::location]. *)
Definition location_at (w : X11Win) (r : Radio) (y : bool) : Z :=
  let spec := pt_at (specification r) y in
  let high := dlt spec (of_int 0) in
  let anchor :=
    corner w (dlt (pt_x (specification r)) (of_int 0))
             (dlt (pt_y (specification r)) (of_int 0)) in
  let border := lit 1 * of_int (radio_min_border w) in
  if dgt (dabs spec) (of_int 0) && dlt (dabs spec) (of_int 50) then
    to_int (of_int (pt_at anchor y)
            + border * (spec + lit (1 # 2)%Q + of_int (if high then 1 else -2)%Z))
  else
    let centered :=
      spec - of_int (if dgt (dabs spec) (of_int 0) then 100 else 0)%Z in
    to_int (of_int (Z.quot (b_low (bounds_at w y) + b_high (bounds_at w y)) 2)
            + centered * border).

Definition location (w : X11Win) (r : Radio) : Point :=
  mkPoint (location_at w r false) (location_at w r true).

(** [Radio::radius] and [Radio::contains]. *)
Definition radius (w : X11Win) (r : Radio) : D :=
  radius_scale r * of_int (radio_min_border w) / lit 3.

Definition contains (w : X11Win) (r : Radio) (point : Point) : bool :=
  dlt (distance (location w r) point) (radius w r).

(** The closures of [Actions], over a world [W] they read and change.
    They are closures over the graph, so the press hook is given the
    control as well and may write it: [movie], the press hook of the movie
    controls, ends by turning its own control off.  No release hook of the
    source writes its own control. *)
Record Actions (W : Type) : Type := mkActions {
  act_press : W -> Radio -> W * Radio;
  act_visible : W -> bool;
  act_release : W -> W
}.

(** What a call of [press] or [release] does besides changing the radio:
    [Radio::draw] (which shows the toggle state) and the two hooks. *)
Inductive RadioEffect : Type :=
  | DrawRadio (shown_toggled : bool)
  | PressAction
  | ReleaseAction.

Record RadioResult (W : Type) : Type := mkRadioResult {
  res_radio : Radio;
  res_world : W;
  res_effects : list RadioEffect;
  res_hit : bool
}.

(** [Radio::press]. *)
Definition press W (w : X11Win) (a : Actions W) (r : Radio) (st : W)
    (point : Point) : RadioResult W :=
  if negb (act_visible a st) then
    mkRadioResult (set_skip_release r true) st [] (contains w r point)
  else if contains w r point then
    let r' := set_toggled r (negb (toggled r)) in
    let (st', r'') := act_press a st r' in
    mkRadioResult r'' st' [DrawRadio (toggled r'); PressAction] true
  else mkRadioResult r st [] false.

(** [Radio::release]. *)
Definition release W (w : X11Win) (a : Actions W) (r : Radio) (st : W)
    (point : Point) : RadioResult W :=
  if skip_release r then
    mkRadioResult (set_skip_release r false) st [] (contains w r point)
  else if contains w r point then
    let r' := if togglable r then r else set_toggled r (negb (toggled r)) in
    mkRadioResult r' (act_release a st)
                  [DrawRadio (toggled r'); ReleaseAction] true
  else mkRadioResult r st [] false.

(** [Radio::operator=(bool)]: sets the state and redraws. *)
Definition Radio_assign (r : Radio) (state : bool) : Radio :=
  set_toggled r state.

End RadioModel.

Arguments Radio D : clear implicits.
Arguments Actions D W : clear implicits.

(* ================================================================== *)
(** * SavedConfig and the graph state *)
(* ================================================================== *)

Section GraphModel.

Context {D : Type} `{Double D} `{DoubleSqrt D} `{Utility D}.
Local Open Scope dbl_scope.

(** One row of a [Range]: [range[y][0]] (low), [range[y][1]] (high) and
    [range[y][2]] (width). *)
Record Axis : Type := mkAxis { lo : D; hi : D; wd : D }.

(** [Range]: the row of the x axis and the row of the y axis. *)
Record Range : Type := mkRange { rg_x : Axis; rg_y : Axis }.

Definition rget (r : Range) (y : bool) : Axis :=
  if y then rg_y r else rg_x r.

Definition rset (r : Range) (y : bool) (a : Axis) : Range :=
  if y then mkRange (rg_x r) a else mkRange a (rg_y r).

(** [==] and [!=] of two ranges, as [std::vector] compares them: entry by
    entry with the [==] of [double]. *)
Definition Axis_eqb (a b : Axis) : bool :=
  deq (lo a) (lo b) && deq (hi a) (hi b) && deq (wd a) (wd b).

Definition Range_eqb (r1 r2 : Range) : bool :=
  Axis_eqb (rg_x r1) (rg_x r2) && Axis_eqb (rg_y r1) (rg_y r2).

Definition Range_neb (r1 r2 : Range) : bool := negb (Range_eqb r1 r2).

Record SavedConfig : Type := mkSavedConfig {
  arc_radius : D;
  arc_width : D;
  line_width : Z;
  line_type : Z;
  series_order : list nat;
  range : Range;
  max_range : Range;
  zoomed : PointT bool;
  drawn : bool;
  radio_states : list bool
}.

Definition set_range_field (c : SavedConfig) (r : Range) : SavedConfig :=
  mkSavedConfig (arc_radius c) (arc_width c) (line_width c) (line_type c)
    (series_order c) r (max_range c) (zoomed c) (drawn c) (radio_states c).

Definition set_max_range (c : SavedConfig) (r : Range) : SavedConfig :=
  mkSavedConfig (arc_radius c) (arc_width c) (line_width c) (line_type c)
    (series_order c) (range c) r (zoomed c) (drawn c) (radio_states c).

Definition set_zoomed (c : SavedConfig) (y : bool) (b : bool) : SavedConfig :=
  mkSavedConfig (arc_radius c) (arc_width c) (line_width c) (line_type c)
    (series_order c) (range c) (max_range c)
    (if y then mkPoint (pt_x (zoomed c)) b else mkPoint b (pt_y (zoomed c)))
    (drawn c) (radio_states c).

Definition set_drawn (c : SavedConfig) (b : bool) : SavedConfig :=
  mkSavedConfig (arc_radius c) (arc_width c) (line_width c) (line_type c)
    (series_order c) (range c) (max_range c) (zoomed c) b (radio_states c).

Definition set_radio_states (c : SavedConfig) (l : list bool) : SavedConfig :=
  mkSavedConfig (arc_radius c) (arc_width c) (line_width c) (line_type c)
    (series_order c) (range c) (max_range c) (zoomed c) (drawn c) l.

(** [operator!=] of two vectors of [unsigned int] or [unsigned char]. *)
Definition list_neb A (eqb : A -> A -> bool) (l1 l2 : list A) : bool :=
  negb ((List.length l1 =? List.length l2)%nat
        && forallb (fun p => eqb (fst p) (snd p)) (combine l1 l2)).

(** [SavedConfig::operator!=]. *)
Definition SavedConfig_neb (c rhs : SavedConfig) : bool :=
  dne (arc_radius c) (arc_radius rhs)
  || dne (arc_width c) (arc_width rhs)
  || negb (line_width c =? line_width rhs)%Z
  || negb (line_type c =? line_type rhs)%Z
  || list_neb Nat.eqb (series_order c) (series_order rhs)
  || Range_neb (range c) (range rhs)
  || Range_neb (max_range c) (max_range rhs)
  || negb (Bool.eqb (pt_x (zoomed c)) (pt_x (zoomed rhs))
           && Bool.eqb (pt_y (zoomed c)) (pt_y (zoomed rhs)))
  || negb (Bool.eqb (drawn c) (drawn rhs))
  || list_neb Bool.eqb (radio_states c) (radio_states rhs).

(** One series: the x values, the y values, and the toggle state of its
    radio in [series_radios] (the vectors [*data] and [series_radios] have
    one entry per series, in the same order). *)
Record Series : Type := mkSeries {
  xs : list D;
  ys : list D;
  shown : bool
}.

Definition values (s : Series) (y : bool) : list D :=
  if y then ys s else xs s.

(** The members of [X11Graph] the modelled operations read or write.  The
    [SavedConfig] base is [config]; [arcs_radio], [outlines_radio] and
    [lines_radio] are the toggle states of the three controls that head
    [saved_radios]; [saved_config] is the history, newest at the back.
    The render batches ([arcs], [points]) and the X11 resources are
    outside the model. *)
Record X11Graph : Type := mkGraph {
  config : SavedConfig;
  win : X11Win;
  data : list Series;
  scale : D * D * D;
  click : Click;
  last_motion : Point;
  moved : bool;
  small_move : bool;
  arcs_radio : bool;
  outlines_radio : bool;
  lines_radio : bool;
  movie_radios : PointT (Radio D);
  saved_config : list SavedConfig
}.

Definition set_config (g : X11Graph) (c : SavedConfig) : X11Graph :=
  mkGraph c (win g) (data g) (scale g) (click g) (last_motion g) (moved g)
    (small_move g) (arcs_radio g) (outlines_radio g) (lines_radio g)
    (movie_radios g) (saved_config g).

Definition set_win (g : X11Graph) (w : X11Win) : X11Graph :=
  mkGraph (config g) w (data g) (scale g) (click g) (last_motion g) (moved g)
    (small_move g) (arcs_radio g) (outlines_radio g) (lines_radio g)
    (movie_radios g) (saved_config g).

Definition set_scale (g : X11Graph) (s : D * D * D) : X11Graph :=
  mkGraph (config g) (win g) (data g) s (click g) (last_motion g) (moved g)
    (small_move g) (arcs_radio g) (outlines_radio g) (lines_radio g)
    (movie_radios g) (saved_config g).

Definition set_click (g : X11Graph) (c : Click) : X11Graph :=
  mkGraph (config g) (win g) (data g) (scale g) c (last_motion g) (moved g)
    (small_move g) (arcs_radio g) (outlines_radio g) (lines_radio g)
    (movie_radios g) (saved_config g).

Definition set_moved (g : X11Graph) (b : bool) : X11Graph :=
  mkGraph (config g) (win g) (data g) (scale g) (click g) (last_motion g) b
    (small_move g) (arcs_radio g) (outlines_radio g) (lines_radio g)
    (movie_radios g) (saved_config g).

Definition set_small_move (g : X11Graph) (b : bool) : X11Graph :=
  mkGraph (config g) (win g) (data g) (scale g) (click g) (last_motion g)
    (moved g) b (arcs_radio g) (outlines_radio g) (lines_radio g)
    (movie_radios g) (saved_config g).

Definition set_movie_radios (g : X11Graph) (m : PointT (Radio D)) : X11Graph :=
  mkGraph (config g) (win g) (data g) (scale g) (click g) (last_motion g)
    (moved g) (small_move g) (arcs_radio g) (outlines_radio g)
    (lines_radio g) m (saved_config g).

Definition set_saved_config (g : X11Graph) (h : list SavedConfig) : X11Graph :=
  mkGraph (config g) (win g) (data g) (scale g) (click g) (last_motion g)
    (moved g) (small_move g) (arcs_radio g) (outlines_radio g)
    (lines_radio g) (movie_radios g) h.

(** Shorthands for the members of the [SavedConfig] base. *)
Definition g_range (g : X11Graph) : Range := range (config g).
Definition g_max_range (g : X11Graph) : Range := max_range (config g).

Definition scale_at (g : X11Graph) (y : bool) : D :=
  if y then snd (fst (scale g)) else fst (fst (scale g)).

(* ---------------------------------------------------------------- *)
(** ** Range functions *)

Definition padding : D := lit (1 # 100)%Q.

(** The body of the innermost loop of [get_range]: one value against the
    running minimum [range[y][0]] and maximum [range[y][1]]. *)
Definition scan_value (a : Axis) (val : D) : Axis :=
  if negb (isfinite val) then a
  else
    let a1 := if dgt (lo a) val then mkAxis val (hi a) (wd a) else a in
    if dlt (hi a1) val then mkAxis (lo a1) val (wd a1) else a1.

(** The loop over the series, skipping those whose radio is off. *)
Definition scan_series (y : bool) (a : Axis) (s : Series) : Axis :=
  if negb (shown s) then a else fold_left scan_value (values s y) a.

Definition scan_data (y : bool) (l : list Series) : Axis :=
  fold_left (scan_series y) l (mkAxis unset nunset (of_int 0)).

(** The body of [get_range] for one axis. *)
Definition get_range_axis (y : bool) (g : X11Graph) : X11Graph :=
  let a := scan_data y (data g) in
  let w := hi a - lo a in
  let l := lo a - padding * w in
  let h := hi a + padding * w in
  let c := set_range_field (config g) (rset (g_range g) y (mkAxis l h (h - l))) in
  set_config g (set_zoomed c y false).

(** [X11Graph::get_range(a)]; [a] is 0, 1 or (the default) 2. *)
Definition get_range (a : Z) (g : X11Graph) : X11Graph :=
  let step (g : X11Graph) (y : bool) :=
    if negb (a =? 2)%Z && negb (a =? (if y then 1 else 0))%Z then g
    else get_range_axis y g in
  let g2 := step (step g false) true in
  if (a =? 2)%Z then set_config g2 (set_max_range (config g2) (g_range g2))
  else g2.

Definition range_eps : D := lit (1 # 100000000000)%Q.

(** The test of [set_range]: is [|high - low|] more than [1e-11] of the
    width of [max_range]? *)
Definition range_ok (g : X11Graph) (y : bool) (low high : D) : bool :=
  dgt (dabs (high - low)) (range_eps * wd (rget (g_max_range g) y)).

(** [X11Graph::set_range]. *)
Definition set_range (y : bool) (low high : D) (g : X11Graph) : X11Graph :=
  if range_ok g y low high then
    let c := set_range_field (config g)
               (rset (g_range g) y (mkAxis low high (high - low))) in
    set_config g
      (set_zoomed c y
         (dne (lo (rget (range c) y)) (lo (rget (max_range c) y))
          || dne (hi (rget (range c) y)) (hi (rget (max_range c) y))))
  else
    set_config g (set_range_field (config g) (g_max_range g)).

(** [X11Graph::range_jump]. *)
Definition range_jump (y : bool) (dist : D) (g : X11Graph) : X11Graph :=
  set_range y (lo (rget (g_range g) y) + dist) (hi (rget (g_range g) y) + dist) g.

(** [X11Graph::in_range(x, y)]. *)
Definition in_range (g : X11Graph) (x y : D) : bool :=
  dge x (lo (rg_x (g_range g))) && dle x (hi (rg_x (g_range g)))
  && dge y (lo (rg_y (g_range g))) && dle y (hi (rg_y (g_range g))).

(* ---------------------------------------------------------------- *)
(** ** Coordinates *)



(** [X11Graph::icoord(y, val)]: window to data. *)
Definition icoord (g : X11Graph) (y : bool) (val : Z) : D :=
  if y then of_int (b_high (bounds_at (win g) true) - val) / scale_at g true
            + lo (rg_y (g_range g))
  else of_int (val - b_low (bounds_at (win g) false)) / scale_at g false
       + lo (rg_x (g_range g)).



End GraphModel.

Arguments Axis D : clear implicits.
Arguments Range D : clear implicits.
Arguments SavedConfig D : clear implicits.
Arguments Series D : clear implicits.
Arguments X11Graph D : clear implicits.

(* ================================================================== *)
(** * Preparing, drawing, pointer release and the movie *)
(* ================================================================== *)

Section GraphEvents.

Context {D : Type} `{Double D} `{DoubleSqrt D} `{Utility D}.
Local Open Scope dbl_scope.

(** [X11Graph::min_border]: [0.05 * std::min(width(), height())] as
    [int]. *)
Definition min_border (g : X11Graph D) : Z :=
  to_int (lit (1 # 20)%Q * of_int (Z.min (width (win g)) (height (win g)))).

(** The test of [prepare] headed "Make sure range is reasonable". *)
Definition range_off_data (g : X11Graph D) : bool :=
  dge (lo (rg_x (g_range g))) (hi (rg_x (g_max_range g)))
  || dle (hi (rg_x (g_range g))) (lo (rg_x (g_max_range g)))
  || dge (lo (rg_y (g_range g))) (hi (rg_y (g_max_range g)))
  || dle (hi (rg_y (g_range g))) (lo (rg_y (g_max_range g))).

(** [X11Graph::prepare], up to the scales; the computation of the render
    batches that follows reads the state and writes [arcs] and [points]
    only. *)
Definition prepare (g : X11Graph D) : X11Graph D :=
  let g1 := set_config g (set_drawn (config g) false) in
  let border := min_border g1 in
  let g2 := set_win g1 (set_bounds (win g1) border (extent (win g1) false - border)
                                   border (extent (win g1) true - border)) in
  let g3 := if range_off_data g2
            then set_config g2 (set_range_field (config g2) (g_max_range g2))
            else g2 in
  let sx := of_int (b_extent (bounds_at (win g3) false)) / wd (rg_x (g_range g3)) in
  let sy := of_int (b_extent (bounds_at (win g3) true)) / wd (rg_y (g_range g3)) in
  set_scale g3 (sx, sy, sy / sx).

(** [X11Graph::current_config]: the base, with the toggle states of
    [saved_radios] (the three global controls, then one per series). *)
Definition current_config (g : X11Graph D) : SavedConfig D :=
  set_radio_states (config g)
    ([arcs_radio g; outlines_radio g; lines_radio g] ++ map (@shown D) (data g)).

(** [saved_config.back()]. *)
Definition back (h : list (SavedConfig D)) : option (SavedConfig D) :=
  match rev h with
  | [] => None
  | c :: _ => Some c
  end.

(** [X11Graph::save_config]. *)
Definition save_config (g : X11Graph D) (c : SavedConfig D) : X11Graph D :=
  set_saved_config g (saved_config g ++ [c]).

(** [X11Graph::draw], for a graph with no call-back registered
    ([call_backs] empty, as constructed): what it draws goes to the X
    server; what it leaves in the state is [just_configured], [drawn] and
    the history. *)
Definition draw (g : X11Graph D) : X11Graph D :=
  let g1 := if just_configured (win g)
            then set_win g (set_just_configured (win g) false)
            else g in
  let g2 := set_config g1 (set_drawn (config g1) true) in
  if negb (small_move g2) then
    let current := current_config g2 in
    match back (saved_config g2) with
    | None => save_config g2 current
    | Some last => if SavedConfig_neb current last
                   then save_config g2 current
                   else g2
    end
  else g2.

(** [prepare_draw]. *)
Definition prepare_draw (g : X11Graph D) : X11Graph D := draw (prepare g).

(** Is axis [y] the one, or one of the two, the gesture acts on:
    the negation of [!in_bounds(click) && y_press != y]. *)
Definition affected (g : X11Graph D) (y : bool) : bool :=
  let y_press := (Z.rem (get_quadrant (win g) (click_point (click g))) 2 =? 1)%Z in
  negb (negb (in_bounds (win g) (click_point (click g)))
        && negb (Bool.eqb y_press y)).

(** The body of the loop of [button_release] for a drag of button 1:
    the dragged extent becomes the range. *)
Definition select_axis (release_pt : Point) (g : X11Graph D) (y : bool)
    : X11Graph D :=
  if negb (affected g y) then g
  else
    let c := pt_at (click_point (click g)) y in
    let min_c := icoord g y (Z.min (pt_at release_pt y) c) in
    let max_c := icoord g y (Z.max (pt_at release_pt y) c) in
    set_range y (if y then max_c else min_c) (if y then min_c else max_c) g.

(** The zoom factor of a click without drag: 1 for value 1, 0.1 for
    value 2, 10 otherwise. *)
Definition click_zoom (g : X11Graph D) : D :=
  let in_ := (click_value (click g) =? 2)%Z in
  let center := (click_value (click g) =? 1)%Z in
  if center then lit 1 else if in_ then lit (1 # 10)%Q else lit 10.

(** The body of the loop of [button_release] for a click without drag. *)
Definition click_axis (g : X11Graph D) (y : bool) : X11Graph D :=
  if negb (affected g y) then g
  else
    let zoom := click_zoom g in
    let half := lit (1 # 2)%Q * wd (rget (g_range g) y) * zoom in
    let mid := icoord g y (pt_at (click_point (click g)) y) in
    set_range y (std_max (lo (rget (g_max_range g) y)) (mid - half))
                (std_min (hi (rget (g_max_range g) y)) (mid + half)) g.

(** [X11Graph::button_release] from [const Point release{event}] on: the
    path on which no control and no call-back has taken the release. *)
Definition release_gesture (event : XButtonEvent) (g : X11Graph D)
    : X11Graph D :=
  let old_range := g_range g in
  let g1 :=
    if moved g then
      let g' := if (click_value (click g) =? 1)%Z
                then select_axis (ev_point event)
                       (select_axis (ev_point event) g false) true
                else g in
      set_moved g' false
    else if (0 <? click_value (click g))%Z
    then click_axis (click_axis g false) true
    else g in
  if Range_neb (g_range g1) old_range || small_move g1
  then prepare_draw (set_small_move g1 false)
  else g1.

(** [X11Graph::button_release].  [taken] says that a series radio, a
    control of [radios] or a call-back took the release; what that
    control then does is not part of this model ([None]).  The
    [Click::Resetter] resets the click on every way out. *)
Definition button_release (taken : bool) (event : XButtonEvent)
    (g : X11Graph D) : option (X11Graph D) :=
  if (click_value (click g) =? 0)%Z then Some (set_click g (Click_reset (click g)))
  else if taken then None
  else
    let g1 := release_gesture event g in
    Some (set_click g1 (Click_reset (click g1))).

(* ---------------------------------------------------------------- *)
(** ** The movie *)

(** What one pass of the movie loop meets: the button releases that
    follow the presses found by [XCheckWindowEvent], in order, and whether
    the clock has already passed the deadline of the frame
    ([time > frame_time]). *)
Record FrameInput : Type := mkFrameInput {
  polled : list XButtonEvent;
  late : bool
}.

(** The two [return] statements of [movie]. *)
Inductive MovieEnd : Type :=
  | ReleasedOnRadio
  | LeftMaxRange.

Definition movie_radio (g : X11Graph D) (right : bool) : Radio D :=
  pt_at (movie_radios g) right.

Definition set_movie_radio (g : X11Graph D) (right : bool) (r : Radio D)
    : X11Graph D :=
  set_movie_radios g
    (if right then mkPoint (pt_x (movie_radios g)) r
     else mkPoint r (pt_y (movie_radios g))).

(** The release hook of a movie radio is the default, empty one; its
    press hook, [movie] itself, is not called through this record. *)
Definition movie_actions : Actions D unit :=
  mkActions (fun u r => (u, r)) (fun _ => true) (fun u => u).

(** The inner [while] of [movie]: each polled release is given to the
    radio; a hit ends the movie. *)
Fixpoint poll (right : bool) (events : list XButtonEvent) (g : X11Graph D)
    : bool * X11Graph D :=
  match events with
  | [] => (false, g)
  | e :: rest =>
      let res := release (win g) movie_actions (movie_radio g right) tt
                         (ev_point e) in
      let g1 := set_movie_radio g right (res_radio res) in
      if res_hit res
      then (true, set_movie_radio g1 right (Radio_assign (res_radio res) false))
      else poll right rest g1
  end.

(** [milliseconds_per_frame]: [1000 / 15.0] as an integer. *)
Definition milliseconds_per_frame : Z := to_int (of_int 1000 / lit 15).

Definition page_rate : D := lit (7 # 20)%Q.

(** Has the x range left the strict inside of [max_range]? *)
Definition at_edge (g : X11Graph D) : bool :=
  negb (dgt (lo (rg_x (g_range g))) (lo (rg_x (g_max_range g)))
        && dlt (hi (rg_x (g_range g))) (hi (rg_x (g_max_range g)))).

(** The [for] loop of [movie], one pass per element of [inputs];
    [last_ms] is [last_time - start_time] in milliseconds.  [None]: the
    loop is still running when the inputs end. *)
Fixpoint movie_loop (right : bool) (inputs : list FrameInput) (frame : Z)
    (last_ms : Z) (g : X11Graph D) : option (MovieEnd * X11Graph D) :=
  match inputs with
  | [] => None
  | fi :: rest =>
      let (hit, g1) := poll right (polled fi) g in
      if hit then Some (ReleasedOnRadio, g1)
      else if late fi then movie_loop right rest (frame + 1) last_ms g1
      else
        let frame_ms := (frame * milliseconds_per_frame)%Z in
        let seconds := of_int (frame_ms - last_ms) / lit 1000 in
        let movement := page_rate * seconds * wd (rg_x (g_range g1)) in
        let g2 := range_jump false
                    (of_int (if right then 1 else -1)%Z * movement) g1 in
        if at_edge g2 then
          Some (LeftMaxRange,
                set_movie_radio g2 right (Radio_assign (movie_radio g2 right) false))
        else
          movie_loop right rest (frame + 1) frame_ms
                     (prepare_draw (set_small_move g2 true))
  end.

(** [X11Graph::movie(right)]. *)
Definition movie (right : bool) (inputs : list FrameInput) (g : X11Graph D)
    : option (MovieEnd * X11Graph D) :=
  movie_loop right inputs 0 0 g.

End GraphEvents.

(* ================================================================== *)
(** * randomize_order *)
(* ================================================================== *)

Module RandomizeOrder.

Local Open Scope string_scope.

(** Successive [getline(input_file, line)] until it fails: a line ends at
    a newline, which is dropped; characters after the last newline make a
    last line; nothing after it makes none. *)
Fixpoint getlines (content : string) (line : string) : list string :=
  match content with
  | EmptyString =>
      match line with
      | EmptyString => []
      | _ => [line]
      end
  | String c rest =>
      if Ascii.eqb c "010"%char then line :: getlines rest EmptyString
      else getlines rest (line ++ String c EmptyString)
  end.

(** The files that can be opened, by name, with their content. *)
Definition FileSystem : Type := string -> option string.

(** The lines [getline] reads from one file. *)
Definition file_lines (fs : FileSystem) (name : string) : list string :=
  match fs name with
  | Some content => getlines content EmptyString
  | None => []
  end.

(** The [while (--argc)] loop: the name of the first file that cannot be
    opened
    (the [Error] is thrown), else the lines of all files in order. *)
Fixpoint read_files (fs : FileSystem) (names : list string)
    (data : list string) : string + list string :=
  match names with
  | [] => inr data
  | name :: rest =>
      match fs name with
      | None => inl name
      | Some content => read_files fs rest (data ++ getlines content EmptyString)
      end
  end.

(** [std::swap] of two positions of a vector. *)
Fixpoint set_nth A (l : list A) (i : nat) (v : A) : list A :=
  match l, i with
  | [], _ => []
  | _ :: t, O => v :: t
  | h :: t, S i' => h :: set_nth t i' v
  end.

Definition swap A (l : list A) (i j : nat) : list A :=
  match nth_error l i, nth_error l j with
  | Some a, Some b => set_nth (set_nth l i b) j a
  | _, _ => l
  end.

(** [std::shuffle]: position [i], for [i] from 1, is swapped with a
    position drawn from [0..i]; [draws i] is the number the generator
    gives for that step, under the seed [random_device] gave. *)
Definition shuffle A (draws : nat -> nat) (l : list A) : list A :=
  fold_left (fun l i => swap l i (draws i mod (S i)))
            (seq 1 (List.length l - 1)) l.

(** What the catch clauses print for the two errors [main] throws. *)
Inductive ErrorReport : Type :=
  | Usage
  | CouldNotOpen (name : string)
  | CoutClosed.

Record Outcome : Type := mkOutcome {
  exit_status : Z;
  cout : list string;   (* each value written, in order, each followed by a newline *)
  cerr : list ErrorReport
}.

(** The output loop.  [room] is how many more values standard output
    accepts before it fails ([None]: it never fails); a failed write
    leaves [cout] bad, which the next pass reports before it stops. *)
Fixpoint write_all (room : option nat) (data : list string)
    : list string * list ErrorReport :=
  match data with
  | [] => ([], [])
  | val :: rest =>
      match room with
      | None => let (o, e) := write_all None rest in (val :: o, e)
      | Some (S n) => let (o, e) := write_all (Some n) rest in (val :: o, e)
      | Some O =>
          match rest with
          | [] => ([], [])
          | _ :: _ => ([], [CoutClosed])
          end
      end
  end.

(** [main]: [args] is [argv[1..]]. *)
Definition main (fs : FileSystem) (draws : nat -> nat) (room : option nat)
    (args : list string) : Outcome :=
  if (Z.of_nat (S (List.length args)) <? 2)%Z then mkOutcome 1 [] [Usage]
  else
    match read_files fs args [] with
    | inl name => mkOutcome 1 [] [CouldNotOpen name]
    | inr data =>
        let (o, e) := write_all room (shuffle draws data) in
        mkOutcome 0 o e
    end.

End RandomizeOrder.

(* ================================================================== *)
(** * Sequences of range calls *)
(* ================================================================== *)

Section RangeCalls.

Context {D : Type} `{Double D} `{DoubleSqrt D} `{Utility D}.

(** The calls that move the view: [set_range] and [range_jump]. *)
Inductive RangeCall : Type :=
  | CallSetRange (y : bool) (low high : D)
  | CallRangeJump (y : bool) (dist : D).

Definition run_call (g : X11Graph D) (c : RangeCall) : X11Graph D :=
  match c with
  | CallSetRange y low high => set_range y low high g
  | CallRangeJump y dist => range_jump y dist g
  end.

Definition run_calls (calls : list RangeCall) (g : X11Graph D) : X11Graph D :=
  fold_left run_call calls g.

(** [range[y][2] == range[y][1] - range[y][0]], with the [==] of
    [double]: false when either side is NaN. *)
Definition width_ok (a : Axis D) : Prop :=
  deq (wd a) (dsub (hi a) (lo a)) = true.

Definition range_width_ok (r : Range D) : Prop :=
  width_ok (rg_x r) /\ width_ok (rg_y r).

(** The state invariant: both the view and the full-data range carry the
    difference of their bounds as width. *)
Definition widths_ok (g : X11Graph D) : Prop :=
  range_width_ok (g_range g) /\ range_width_ok (g_max_range g).

End RangeCalls.

Arguments RangeCall D : clear implicits.

(** What [release] does on a radio with no swallow recorded. *)
Definition normal_release {D} `{Double D} `{DoubleSqrt D} (W : Type)
    (w : X11Win) (a : Actions D W) (r : Radio D) (st : W)
    (point : Point) (res : RadioResult W) : Prop :=
  if contains w r point then
    res_hit res = true
    /\ toggled (res_radio res) = (if togglable r then toggled r else negb (toggled r))
    /\ res_world res = act_release a st
    /\ res_effects res = [DrawRadio (toggled (res_radio res)); ReleaseAction]
  else
    res_hit res = false /\ res_radio res = r /\ res_world res = st
    /\ res_effects res = [].

(* ================================================================== *)
(** * A graph to run the model on *)
(* ================================================================== *)

Section Scenario.

Context {D : Type} `{Double D} `{DoubleSqrt D} `{Utility D}.

(** A [SavedConfig] as its default member initialisers leave it. *)
Definition default_config : SavedConfig D :=
  let unset_range :=
    mkRange (mkAxis unset nunset (of_int 0)) (mkAxis unset nunset (of_int 0)) in
  mkSavedConfig (of_int 4) (of_int 2) 4 0 [] unset_range unset_range
                (mkPoint false false) false [].

(** The two movie radios as [X11Graph] declares them. *)
Definition default_movie_radios : PointT (Radio D) :=
  mkPoint (mkRadio (mkPoint (lit (195 # 2)%Q) (of_int (-1))) true false false (lit 1))
          (mkRadio (mkPoint (lit (205 # 2)%Q) (of_int (-1))) true false false (lit 1)).

(** A 1280 by 720 window, as created. *)
Definition default_win : X11Win :=
  mkWin (mkPoint (mkIBound 0 0 0) (mkIBound 0 0 0)) (mkPoint 1280 720)%Z true true.

(** A graph over the given series, before its first [get_range]; the
    constructor gives [series_order] one entry per series. *)
Definition new_graph (series : list (Series D)) : X11Graph D :=
  let c := default_config in
  mkGraph (mkSavedConfig (arc_radius c) (arc_width c) (line_width c)
             (line_type c) (seq 0 (List.length series)) (range c)
             (max_range c) (zoomed c) (drawn c) (radio_states c))
          default_win series (of_int 0, of_int 0, of_int 0)
          (mkClick (mkPoint 0 0) 0)%Z (mkPoint 0 0)%Z false false
          true false false default_movie_radios [].

(** The series of the end-to-end scenario: x = 0..4, y = x squared. *)
Definition squares : Series D :=
  mkSeries (map of_int [0; 1; 2; 3; 4]%Z) (map of_int [0; 1; 4; 9; 16]%Z) true.

(** The graph of the scenario after its first expose:
    [get_range(); prepare();]. *)
Definition scenario : X11Graph D := prepare (get_range 2 (new_graph [squares])).

End Scenario.


(** Two input files for [randomize_order]: the second has no newline at its
    end. *)
Definition two_files : RandomizeOrder.FileSystem :=
  fun name =>
    if String.eqb name "a.txt" then Some ("one" ++ String "010" "two" ++ String "010" "")%string
    else if String.eqb name "b.txt" then Some ("three" ++ String "010" "four")%string
    else None.



(** The scenario with button 3 pressed at the middle of the window, not yet
    released. *)
Definition pressed_scenario : X11Graph float :=
  set_click scenario (Click_assign (mkButtonEvent 640 360 Button3 0)).

(** The scenario with its x axis narrowed to [1, 3], button 1 pressed at
    (300, 360) and the pointer moved since. *)
Definition dragged_scenario : X11Graph float :=
  set_moved
    (set_click (prepare (set_range false 1%float 3%float scenario))
               (Click_assign (mkButtonEvent 300 360 Button1 0)))
    true.

(** The scenario drawn, then its x axis narrowed to [1, 3] and drawn
    again: two snapshots in the history. *)
Definition first_view : X11Graph float := prepare_draw scenario.

Definition second_view : X11Graph float :=
  prepare_draw (set_range false 1%float 3%float first_view).

(** The scenario with button 3 pressed in the left margin. *)
Definition margin_scenario : X11Graph float :=
  set_click scenario (Click_assign (mkButtonEvent 10 360 Button3 0)).


(** The scenario with its x axis narrowed to [1, 3], laid out. *)
Definition narrowed_scenario : X11Graph float :=
  prepare (set_range false 1%float 3%float scenario).

(* ================================================================== *)
(** * Laws of the arithmetic *)
(* ================================================================== *)

(** The comparisons order the numbers (every value but NaN): laws that
    hold of IEEE doubles, infinities included. *)
Class OrderLaws (D : Type) `{Double D} : Prop := {
  finite_is_num : forall x : D, isfinite x = true -> deq x x = true;
  zero_finite : isfinite (of_int 0) = true;
  dle_num : forall a b : D, dle a b = true -> deq a a = true /\ deq b b = true;
  dle_refl : forall a : D, deq a a = true -> dle a a = true;
  dle_trans : forall a b c : D, dle a b = true -> dle b c = true -> dle a c = true;
  dle_antisym : forall a b : D, dle a b = true -> dle b a = true -> deq a b = true;
  dlt_dle : forall a b : D, dlt a b = true -> dle a b = true;
  dlt_not_dle : forall a b : D,
    deq a a = true -> deq b b = true -> dlt a b = negb (dle b a)
}.

(** Signs survive rounding: a product of a positive finite factor and a
    non-negative one is not negative, and the difference of two equal
    values is zero or NaN; the two small constants of the range functions
    are positive and finite.  These hold of IEEE doubles and of exact
    arithmetic. *)
Class SignLaws (D : Type) `{Double D} : Prop := {
  mul_nonneg : forall c w : D,
    isfinite c = true -> dlt (of_int 0) c = true -> dle (of_int 0) w = true ->
    dle (of_int 0) (dmul c w) = true;
  sub_eq_zero : forall (h l x : D),
    deq h l = true -> dlt x (dabs (dsub h l)) = true -> dlt x (of_int 0) = true;
  padding_pos :
    isfinite (lit (1 # 100)%Q) = true /\ dlt (of_int 0) (lit (1 # 100)%Q) = true;
  range_eps_pos :
    isfinite (lit (1 # 100000000000)%Q) = true
    /\ dlt (of_int 0) (lit (1 # 100000000000)%Q) = true
}.

(** Rounding keeps the order: subtracting or adding a non-negative amount
    does not pass the starting point, and a difference of ordered finite
    values is not negative.  These hold of IEEE doubles in round-to-nearest
    (results may be infinite). *)
Class MonotoneLaws (D : Type) `{Double D} : Prop := {
  sub_le : forall a p : D,
    isfinite a = true -> dle (of_int 0) p = true -> dle (dsub a p) a = true;
  add_ge : forall a p : D,
    isfinite a = true -> dle (of_int 0) p = true -> dle a (dadd a p) = true;
  sub_nonneg : forall a b : D,
    isfinite a = true -> isfinite b = true -> dle b a = true ->
    dle (of_int 0) (dsub a b) = true
}.

(** NaN propagates: a value below an absolute value witnesses that the
    latter is a number, and a difference is a number only if both its terms
    are.  These hold of IEEE doubles. *)
Class NanLaws (D : Type) `{Double D} : Prop := {
  lt_abs_num : forall a d : D, dlt a (dabs d) = true -> deq d d = true;
  sub_num : forall h l : D,
    deq (dsub h l) (dsub h l) = true -> deq h h = true /\ deq l l = true
}.

(** What is assumed of the sentinels taken from utility.h: they are the two
    ends of the finite values. *)
Class UtilityLaws (D : Type) `{Double D} `{Utility D} : Prop := {
  unset_finite : isfinite unset = true;
  nunset_finite : isfinite nunset = true;
  unset_top : forall v : D, isfinite v = true -> dle v unset = true;
  nunset_bottom : forall v : D, isfinite v = true -> dle nunset v = true
}.

(** What is assumed of [dne]: it never holds between a number and
    itself. *)
Class DneLaws (D : Type) `{Double D} `{Utility D} : Prop := {
  dne_irrefl : forall x : D, deq x x = true -> dne x x = false
}.

Arguments OrderLaws D {_}.
Arguments SignLaws D {_}.
Arguments MonotoneLaws D {_}.
Arguments NanLaws D {_}.
Arguments UtilityLaws D {_ _}.
Arguments DneLaws D {_ _}.

Section Visible.

Context {D : Type} `{Double D} `{DoubleSqrt D} `{Utility D}.

(** A finite value of axis [y] of a series of [l] whose radio is on. *)
Definition seen (l : list (Series D)) (y : bool) (v : D) : Prop :=
  exists s, In s l /\ shown s = true /\ In v (values s y)
            /\ isfinite v = true.

(** What [get_range] looks at: the finite values of the shown series. *)
Definition visible_value (g : X11Graph D) (y : bool) (v : D) : Prop :=
  seen (data g) y v.

(** A minimum and a maximum padded by 1% of their span on each side, with
    the width of the padded interval. *)
Definition padded_range (minimum maximum : D) : Axis D :=
  let span := dsub maximum minimum in
  let low := dsub minimum (dmul padding span) in
  let high := dadd maximum (dmul padding span) in
  mkAxis low high (dsub high low).

(** No entry of the row, of the range, of the configuration is NaN. *)
Definition axis_nums (a : Axis D) : Prop :=
  is_num (lo a) /\ is_num (hi a) /\ is_num (wd a).

Definition range_nums (r : Range D) : Prop :=
  axis_nums (rg_x r) /\ axis_nums (rg_y r).

Definition config_nums (c : SavedConfig D) : Prop :=
  is_num (arc_radius c) /\ is_num (arc_width c)
  /\ range_nums (range c) /\ range_nums (max_range c).

End Visible.

Section PrepareParts.

Context {D : Type} `{Double D} `{DoubleSqrt D} `{Utility D}.

(** The three things [prepare] writes, each as a function of the state it
    starts from: the window with its new bounds, the configuration with
    [drawn] cleared and the view possibly put back to [max_range], and the
    scales. *)
Definition prepared_win (g : X11Graph D) : X11Win :=
  set_bounds (win g) (min_border g) (extent (win g) false - min_border g)
             (min_border g) (extent (win g) true - min_border g).

Definition prepared_config (g : X11Graph D) : SavedConfig D :=
  set_range_field (set_drawn (config g) false)
    (if range_off_data g then g_max_range g else g_range g).

Definition prepared_scale (g : X11Graph D) : D * D * D :=
  let sx := ddiv (of_int (extent (win g) false - min_border g - min_border g))
                 (wd (rg_x (range (prepared_config g)))) in
  let sy := ddiv (of_int (extent (win g) true - min_border g - min_border g))
                 (wd (rg_y (range (prepared_config g)))) in
  (sx, sy, ddiv sy sx).

(** What a run of the movie keeps: the history, [max_range], the size of
    the window, and the placement of the movie control; the bounds are
    those it started with or those [prepare] computes from the size. *)
Definition movie_keeps (right : bool) (g0 g : X11Graph D) : Prop :=
  saved_config g = saved_config g0
  /\ g_max_range g = g_max_range g0
  /\ size_ (win g) = size_ (win g0)
  /\ (bounds (win g) = bounds (win g0)
      \/ bounds (win g) = bounds (prepared_win g0))
  /\ specification (movie_radio g right) = specification (movie_radio g0 right)
  /\ radius_scale (movie_radio g right) = radius_scale (movie_radio g0 right).

(** The view lies within [max_range] on axis [y]. *)
Definition within_max (g : X11Graph D) (y : bool) : Prop :=
  dle (lo (rget (g_max_range g) y)) (lo (rget (g_range g) y)) = true
  /\ dle (hi (rget (g_range g) y)) (hi (rget (g_max_range g) y)) = true.

End PrepareParts.

(** A specification float that carries the sign [s]: a zero, a finite
    number or an infinity of that sign (used for the sign of a rounded
    product). *)
Definition has_sign (s : bool) (r : spec_float) : Prop :=
  match r with
  | S754_zero s' | S754_infinity s' | S754_finite s' _ _ => s' = s
  | S754_nan => False
  end.

(* ================================================================== *)
(** * The text randomize_order leaves on standard output *)
(* ================================================================== *)

(** What [cout << val << '\n'] has put on standard output once every value
    of [out] is written. *)
Definition stdout_text (out : list string) : string :=
  fold_right (fun val text => (val ++ String "010" text)%string) EmptyString out.

(** Does the string hold a newline. *)
Fixpoint has_newline (s : string) : bool :=
  match s with
  | EmptyString => false
  | String c rest => Ascii.eqb c "010"%char || has_newline rest
  end.

(** Every file gives the text [text]: standard output of one run given to
    the next as its input file. *)
Definition piped (text : string) : RandomizeOrder.FileSystem :=
  fun _ => Some text.

(* ================================================================== *)
(** * The previous view *)
(* ================================================================== *)

Section PreviousView.

Context {D : Type} `{Double D} `{DoubleSqrt D} `{Utility D}.

(** The loop of [X11Graph::restore_config] over the series radios of
    [saved_radios]: [series_radios[s].toggled = config.radio_states[3 + s]].
    A state list that ends before the radios do is read past its end
    ([None]); entries beyond the radios are not read. *)
Fixpoint restore_series (states : list bool) (d : list (Series D))
    : option (list (Series D)) :=
  match d with
  | [] => Some []
  | s :: d' =>
      match states with
      | [] => None
      | b :: states' =>
          match restore_series states' d' with
          | Some r => Some (mkSeries (xs s) (ys s) b :: r)
          | None => None
          end
      end
  end.

(** [X11Graph::restore_config]: the toggle states of [saved_radios] (the
    three global controls, then the series radios) are taken from
    [radio_states], then the [SavedConfig] base is assigned.  The line
    widths it sets first are those of graphics contexts. *)
Definition restore_config (c : SavedConfig D) (g : X11Graph D)
    : option (X11Graph D) :=
  match radio_states c with
  | a :: o :: l :: rest =>
      match restore_series rest (data g) with
      | Some d =>
          Some (mkGraph c (win g) d (scale g) (click g) (last_motion g)
                  (moved g) (small_move g) a o l (movie_radios g)
                  (saved_config g))
      | None => None
      end
  | _ => None
  end.

(** The release action of [previous_views_radio]: with more than one entry
    in the history, the newest is dropped, the one before it restored, and
    the graph prepared and drawn. *)
Definition previous_view (g : X11Graph D) : option (X11Graph D) :=
  if (1 <? List.length (saved_config g))%nat then
    let h := removelast (saved_config g) in
    match back h with
    | Some c =>
        match restore_config c (set_saved_config g h) with
        | Some g' => Some (prepare_draw g')
        | None => None
        end
    | None => None
    end
  else Some g.

End PreviousView.

(* ================================================================== *)
(** * The requests of one series in draw *)
(* ================================================================== *)

(** The loop of [X11Graph::draw] that sends the arcs (or the points) of one
    series in requests of at most [block] items:
    [for (unsigned int bs{0}; bs < size; bs += block)] with
    [n = bs + block < size ? block : size - bs] and a request for the [n]
    items from [bs] when [n] is not zero.  [bs] is a 32-bit counter, [block]
    and the size are 64-bit; the result is the list of the requests, each the
    items it sends.  The loop need not end: [fuel] bounds its passes. *)
Fixpoint draw_batches (A : Type) (fuel : nat) (block : Z) (items : list A)
    (bs : Z) : option (list (list A)) :=
  match fuel with
  | O => None
  | S fuel' =>
      let size := Z.of_nat (List.length items) in
      if (bs <? size)%Z then
        let n := if ((bs + block) mod 2 ^ 64 <? size)%Z
                 then block else ((size - bs) mod 2 ^ 64)%Z in
        match draw_batches fuel' block items ((bs + block) mod 2 ^ 32)%Z with
        | Some rest =>
            Some (if (n =? 0)%Z then rest
                  else firstn (Z.to_nat n) (skipn (Z.to_nat bs) items) :: rest)
        | None => None
        end
      else Some []
  end.

(* ================================================================== *)
(** * The bounds a click without drag asks for *)
(* ================================================================== *)

Section ZoomRequest.

Context {D : Type} `{Double D} `{DoubleSqrt D} `{Utility D}.
Local Open Scope dbl_scope.



End ZoomRequest.



Unset Implicit Arguments.

(** Closed facts about concrete inputs are settled by evaluation, one
    conjunct at a time. *)
Ltac by_computation :=
  cbv zeta;
  repeat match goal with |- _ /\ _ => split end;
  vm_compute; reflexivity.

(* ================================================================== *)
(** * The Click classification *)
(* ================================================================== *)

Lemma has_mask_Shift (state : Z) :
  has_mask state ShiftMask = Z.testbit state 0.
Proof.
  unfold has_mask, ShiftMask.
  change 1%Z with (Z.ones 1). rewrite Z.land_ones by lia.
  rewrite Z.bit0_odd, <- Z.negb_even, Zeven_mod.
  change (2 ^ 1)%Z with 2%Z.
  destruct (Z.eqb_spec (state mod 2) 0) as [E|E];
    destruct (Z.eqb_spec (state mod 2) 0); try reflexivity; contradiction.
Qed.

Lemma has_mask_Control (state : Z) :
  has_mask state ControlMask = Z.testbit state 2.
Proof.
  unfold has_mask, ControlMask.
  destruct (Z.testbit state 2) eqn:B.
  - apply negb_true_iff, Z.eqb_neq. intro E.
    assert (T : Z.testbit (Z.land state 4) 2 = true).
    { rewrite Z.land_spec, B. reflexivity. }
    rewrite E in T. discriminate T.
  - apply negb_false_iff, Z.eqb_eq, Z.bits_inj'. intros n Hn.
    rewrite Z.land_spec, Z.bits_0.
    destruct (Z.eq_dec n 2) as [->|Hne].
    + rewrite B. reflexivity.
    + change 4%Z with (2 ^ 2)%Z. rewrite Z.pow2_bits_eqb by lia.
      destruct (Z.eqb_spec 2 n); [lia|]. apply andb_false_r.
Qed.

(** C6, counterexample: button 3 pressed with Shift held is classified 2
    (scroll-class), not 3 (zoom-class). *)
Lemma Click_button3_with_shift :
  let e := mkButtonEvent 10 10 Button3 ShiftMask in
  ev_button e = Button3
  /\ click_value (Click_assign e) = 2%Z
  /\ class_of_value (click_value (Click_assign e)) = ScrollClass
  /\ class_of_value (click_value (Click_assign e)) <> ZoomClass.
Proof.
  cbv zeta. repeat split; try reflexivity. discriminate.
Qed.

(** C6, amended: the class is decided by the first test that holds, in the
    order scroll (button 2 or the Shift bit), zoom (button 3 or the Control
    bit), center (button 1), none.  [Click_assign] also records the pointer
    position of the event. *)
Theorem Click_classification (e : XButtonEvent) :
  let v := click_value (Click_assign e) in
  let scroll := ev_button e = Button2 \/ Z.testbit (ev_state e) 0 = true in
  let zoom := ev_button e = Button3 \/ Z.testbit (ev_state e) 2 = true in
  (scroll <-> v = 2%Z)
  /\ (~ scroll /\ zoom <-> v = 3%Z)
  /\ (~ scroll /\ ~ zoom /\ ev_button e = Button1 <-> v = 1%Z)
  /\ (~ scroll /\ ~ zoom /\ ev_button e <> Button1 <-> v = 0%Z)
  /\ click_point (Click_assign e) = mkPoint (ev_x e) (ev_y e).
Proof.
  cbv zeta. unfold Click_assign. cbn [click_value click_point ev_point].
  rewrite has_mask_Shift, has_mask_Control.
  destruct (Z.eqb_spec (ev_button e) Button2) as [E2|E2];
  destruct (Z.eqb_spec (ev_button e) Button3) as [E3|E3];
  destruct (Z.eqb_spec (ev_button e) Button1) as [E1|E1];
  destruct (Z.testbit (ev_state e) 0);
  destruct (Z.testbit (ev_state e) 2);
  cbn [orb]; unfold Button1, Button2, Button3 in *;
  repeat split; try tauto; try lia; try discriminate;
  intros; intuition (try discriminate; try lia).
Qed.

(* ================================================================== *)
(** * The width of a range *)
(* ================================================================== *)

Section RangeWidth.

Context {D : Type} `{Double D} `{DoubleSqrt D} `{Utility D}.

Lemma rget_rset_same (r : Range D) (y : bool) (a : Axis D) :
  rget (rset r y a) y = a.
Proof. destruct y; reflexivity. Qed.

Lemma rget_rset_other (r : Range D) (y : bool) (a : Axis D) :
  rget (rset r y a) (negb y) = rget r (negb y).
Proof. destruct y; reflexivity. Qed.

Lemma range_width_ok_rset (r : Range D) (y : bool) (a : Axis D) :
  range_width_ok r -> width_ok a -> range_width_ok (rset r y a).
Proof.
  intros [Hx Hy] Ha. destruct y; split; cbn; assumption.
Qed.

End RangeWidth.

Section RangeWidthInvariant.

Context {D : Type} `{Double D} `{DoubleSqrt D} `{Utility D}.
Context `{!NanLaws D}.

(** A request that passes the test of [set_range] has a difference that is
    a number, so the width stored for it equals it. *)
Lemma range_ok_width_ok (g : X11Graph D) (y : bool) (low high : D) :
  range_ok g y low high = true -> width_ok (mkAxis low high (dsub high low)).
Proof.
  unfold range_ok, dgt, width_ok. cbn [lo hi wd]. intros T.
  exact (lt_abs_num _ _ T).
Qed.

Lemma set_range_widths_ok (y : bool) (low high : D) (g : X11Graph D) :
  widths_ok g -> widths_ok (set_range y low high g).
Proof.
  intros [Hr Hm]. unfold set_range.
  destruct (range_ok g y low high) eqn:T.
  - split; [|exact Hm]. unfold g_range.
    cbn [config set_config range set_zoomed set_range_field].
    apply range_width_ok_rset; [exact Hr|].
    exact (range_ok_width_ok g y low high T).
  - split; exact Hm.
Qed.

Lemma run_calls_widths_ok (calls : list (RangeCall D)) (g : X11Graph D) :
  widths_ok g -> widths_ok (run_calls calls g).
Proof.
  revert g. induction calls as [|c calls IH]; intros g Hg; [exact Hg|].
  cbn. apply IH. destruct c as [y low high|y dist]; cbn.
  - apply set_range_widths_ok, Hg.
  - apply set_range_widths_ok, Hg.
Qed.

(** C1: from a state in which the view and [max_range] both carry the
    difference of their bounds as width (with the [==] of [double]), after
    each call of any sequence of [set_range] and [range_jump] calls, with any
    arguments, NaN and infinities included, the stored width of each axis
    equals its high bound minus its low bound: a request is installed only
    when its difference is a number, and a reset copies [max_range]. *)
Theorem set_range_width_invariant
    (g : X11Graph D) (calls : list (RangeCall D)) (n : nat) (y : bool) :
  widths_ok g ->
  let g' := run_calls (firstn n calls) g in
  deq (wd (rget (g_range g') y))
      (dsub (hi (rget (g_range g') y)) (lo (rget (g_range g') y))) = true.
Proof.
  intros Hg. cbv zeta.
  destruct (run_calls_widths_ok (firstn n calls) g Hg) as [[Hx Hy] _].
  destruct y; assumption.
Qed.

End RangeWidthInvariant.

(* ================================================================== *)
(** * The Radio control: a press while hidden swallows the release *)
(* ================================================================== *)

Section RadioSwallow.

Context {D : Type} `{Double D} `{DoubleSqrt D}.
Variable W : Type.

Lemma contains_set_skip_release (w : X11Win) (r : Radio D) (b : bool) (p : Point) :
  contains w (set_skip_release r b) p = contains w r p.
Proof. reflexivity. Qed.

(** C7: a press while the visibility predicate is false records a swallow
    and does nothing else; the next release consumes it, returns the
    hit test of its point, leaves [toggled] alone and invokes no hook;
    the release after that is an ordinary release. *)
Theorem press_hidden_swallows_release
    (w : X11Win) (a : Actions D W) (r : Radio D)
    (st1 st2 st3 : W) (p1 p2 p3 : Point) :
  act_visible a st1 = false ->
  let pressed := press w a r st1 p1 in
  let released := release w a (res_radio pressed) st2 p2 in
  let again := release w a (res_radio released) st3 p3 in
  (skip_release (res_radio pressed) = true
   /\ toggled (res_radio pressed) = toggled r
   /\ res_world pressed = st1
   /\ res_effects pressed = []
   /\ res_hit pressed = contains w r p1)
  /\ (res_hit released = contains w r p2
      /\ toggled (res_radio released) = toggled r
      /\ res_world released = st2
      /\ res_effects released = []
      /\ skip_release (res_radio released) = false)
  /\ normal_release w a (res_radio released) st3 p3 again.
Proof.
  intros Hv. cbv zeta. unfold press. rewrite Hv. cbn [negb res_radio].
  unfold release at 2. cbn [skip_release set_skip_release res_radio].
  repeat split.
  unfold normal_release, release.
  cbn [skip_release set_skip_release res_radio togglable toggled].
  destruct (contains w _ p3); cbn; repeat split.
  destruct (togglable r); reflexivity.
Qed.

End RadioSwallow.

(** A hidden control (its predicate is false), pressed and released on its
    centre: the release is a hit, and nothing is drawn or invoked. *)
Lemma press_hidden_swallows_release_witness :
  let w := win (scenario (D:=float)) in
  let r := pt_y (default_movie_radios (D:=float)) in
  let a := mkActions (fun (n : nat) r => (S n, r)) (fun _ => false) (fun n => (n + 10)%nat) in
  let p := mkPoint 730%Z 702%Z in
  act_visible a 0%nat = false
  /\ contains w r p = true
  /\ res_hit (release w a (res_radio (press w a r 0%nat p)) 0%nat p) = contains w r p
  /\ res_effects (release w a (res_radio (press w a r 0%nat p)) 0%nat p) = [].
Proof.
  cbv zeta.
  split; [reflexivity|]. split; [vm_compute; reflexivity|].
  pose proof (press_hidden_swallows_release nat
                (win (scenario (D:=float)))
                (mkActions (fun (n : nat) r => (S n, r)) (fun _ => false)
                           (fun n => (n + 10)%nat))
                (pt_y (default_movie_radios (D:=float))) 0%nat 0%nat 0%nat
                (mkPoint 730%Z 702%Z) (mkPoint 730%Z 702%Z) (mkPoint 730%Z 702%Z)
                eq_refl) as T.
  cbv zeta in T.
  destruct T as [_ [[T1 [_ [_ [T2 _]]]] _]].
  split; [exact T1|exact T2].
Defined.

(* ================================================================== *)
(** * randomize_order writes a permutation of its input lines *)
(* ================================================================== *)

Module RandomizeOrderProofs.

Import RandomizeOrder.

Section Swap.

Variable A : Type.

Lemma set_nth_perm (l : list A) (i : nat) (a v : A) :
  nth_error l i = Some a -> Permutation (v :: l) (a :: set_nth l i v).
Proof.
  revert i. induction l as [|h t IH]; intros [|i] E; cbn in *;
    try discriminate.
  - injection E as ->. apply perm_swap.
  - apply Permutation_trans with (h :: v :: t); [apply perm_swap|].
    apply Permutation_trans with (h :: a :: set_nth t i v);
      [apply perm_skip, IH, E|apply perm_swap].
Qed.

Lemma nth_error_set_nth (l : list A) (i j : nat) (a b : A) :
  nth_error l i = Some a -> nth_error l j = Some b ->
  nth_error (set_nth l i b) j = Some b.
Proof.
  revert i j. induction l as [|h t IH]; intros [|i] [|j] Ei Ej; cbn in *;
    try discriminate; try assumption.
  - reflexivity.
  - apply (IH i j); assumption.
Qed.

Lemma swap_perm (l : list A) (i j : nat) : Permutation (swap l i j) l.
Proof.
  unfold swap.
  destruct (nth_error l i) as [a|] eqn:Ei; [|apply Permutation_refl].
  destruct (nth_error l j) as [b|] eqn:Ej; [|apply Permutation_refl].
  apply Permutation_cons_inv with (a := b). apply Permutation_sym.
  apply Permutation_trans with (a :: set_nth l i b).
  - apply set_nth_perm, Ei.
  - apply set_nth_perm, (nth_error_set_nth l i j a b Ei Ej).
Qed.

Lemma shuffle_perm (draws : nat -> nat) (l : list A) :
  Permutation (shuffle draws l) l.
Proof.
  unfold shuffle. generalize (seq 1 (List.length l - 1)) as steps.
  intros steps.
  assert (G : forall l0, Permutation l0 l ->
            Permutation
              (fold_left (fun l i => swap l i (draws i mod S i)) steps l0) l).
  { induction steps as [|i steps IH]; intros l0 P; cbn; [exact P|].
    apply IH. apply Permutation_trans with l0; [apply swap_perm|exact P]. }
  apply G, Permutation_refl.
Qed.

End Swap.

Lemma write_all_open (data : list string) : write_all None data = (data, []).
Proof.
  induction data as [|val rest IH]; cbn; [reflexivity|].
  rewrite IH. reflexivity.
Qed.

Lemma read_files_all_open (fs : FileSystem) (names : list string)
    (data : list string) :
  (forall name, In name names -> fs name <> None) ->
  read_files fs names data = inr (data ++ flat_map (file_lines fs) names).
Proof.
  revert data. induction names as [|name rest IH]; intros data Hopen; cbn.
  - rewrite app_nil_r. reflexivity.
  - unfold file_lines at 1.
    destruct (fs name) as [content|] eqn:E.
    + rewrite IH, app_assoc; [reflexivity|].
      intros n Hn. apply Hopen. right. exact Hn.
    + exfalso. apply (Hopen name); [left; reflexivity|exact E].
Qed.

Lemma write_all_room (n : nat) (data : list string) :
  write_all (Some n) data
  = (firstn n data,
     if (S n <? List.length data)%nat then [CoutClosed] else []).
Proof.
  revert n. induction data as [|val rest IH]; intros n.
  - destruct n; reflexivity.
  - destruct n as [|n].
    + destruct rest; reflexivity.
    + cbn [write_all firstn List.length]. rewrite IH.
      change (S (S n) <? S (List.length rest))%nat
        with (S n <? List.length rest)%nat.
      reflexivity.
Qed.

(** C10: when every named file opens, the program exits with 0, whatever
    numbers the generator draws and whether standard output fails or not;
    there is a permutation of the lines of the input files of which it
    writes all, when standard output never fails, and the first [n], when
    standard output takes [n] values and then fails.  So with standard
    output never failing the lines written are a permutation of the input
    lines and nothing is reported.  With no file argument it exits with 1
    after the usage message and writes nothing to standard output. *)
Theorem randomize_order_permutes
    (fs : FileSystem) (draws : nat -> nat) (room : option nat)
    (args : list string) :
  (forall name, In name args -> fs name <> None) ->
  match args with
  | [] => main fs draws room [] = mkOutcome 1 [] [Usage]
  | _ :: _ =>
      let out := main fs draws room args in
      exit_status out = 0%Z
      /\ (exists lines,
             Permutation lines (flat_map (file_lines fs) args)
             /\ cout out = match room with
                           | None => lines
                           | Some n => firstn n lines
                           end)
      /\ (room = None ->
          cerr out = []
          /\ Permutation (cout out) (flat_map (file_lines fs) args))
  end.
Proof.
  intros Hopen. destruct args as [|name rest]; [reflexivity|].
  cbv zeta. unfold main.
  replace (Z.of_nat (S (List.length (name :: rest))) <? 2)%Z with false
    by (symmetry; apply Z.ltb_ge; cbn [List.length]; lia).
  rewrite (read_files_all_open fs (name :: rest) [] Hopen).
  cbn [app].
  set (lines := shuffle draws (flat_map (file_lines fs) (name :: rest))).
  assert (P : Permutation lines (flat_map (file_lines fs) (name :: rest)))
    by apply shuffle_perm.
  destruct room as [n|].
  - rewrite write_all_room. cbn [exit_status cerr cout].
    split; [reflexivity|]. split; [|discriminate].
    exists lines. split; [exact P|reflexivity].
  - rewrite write_all_open. cbn [exit_status cerr cout].
    split; [reflexivity|]. split; [|intros _; split; [reflexivity|exact P]].
    exists lines. split; [exact P|reflexivity].
Qed.

End RandomizeOrderProofs.

(** Standard output failing (claim C10 has no condition on it): with the
    two files of four lines in all, and a standard output that takes one
    value and then fails, the program writes one line and still exits with
    0. *)
Lemma randomize_order_output_fails :
  RandomizeOrder.main two_files (fun i => i + 4) (Some 1) ["a.txt"; "b.txt"]%string
  = RandomizeOrder.mkOutcome 0 ["three"]%string [RandomizeOrder.CoutClosed]
  /\ flat_map (RandomizeOrder.file_lines two_files) ["a.txt"; "b.txt"]%string
     = ["one"; "two"; "three"; "four"]%string.
Proof. split; vm_compute; reflexivity. Qed.

(** Two files of two lines each, shuffled with the draws 5, 6, 7, ... *)
Lemma randomize_order_permutes_witness :
  (forall name, In name ["a.txt"; "b.txt"]%string -> two_files name <> None)
  /\ RandomizeOrder.cout (RandomizeOrder.main two_files (fun i => i + 4) None ["a.txt"; "b.txt"]%string)
     = ["three"; "two"; "one"; "four"]%string
  /\ Permutation
       (RandomizeOrder.cout (RandomizeOrder.main two_files (fun i => i + 4) None ["a.txt"; "b.txt"]%string))
       (flat_map (RandomizeOrder.file_lines two_files) ["a.txt"; "b.txt"]%string).
Proof.
  assert (Hopen : forall name, In name ["a.txt"; "b.txt"]%string ->
                               two_files name <> None).
  { intros name [<-|[<-|[]]]; discriminate. }
  split; [exact Hopen|]. split; [vm_compute; reflexivity|].
  exact (proj2 (proj2 (proj2 (RandomizeOrderProofs.randomize_order_permutes
                                two_files (fun i => i + 4) None
                                ["a.txt"; "b.txt"]%string Hopen)) eq_refl)).
Defined.

(* ================================================================== *)
(** * IEEE binary64 satisfies the order and sign laws *)
(* ================================================================== *)

Module B64Laws.

(** Case analysis on specification floats and on the comparisons of their
    exponents and mantissas. *)
Ltac sf_cases :=
  repeat match goal with
         | s : spec_float |- _ => destruct s as [[|]|[|]| |[|] ? ?]
         end;
  cbn; try discriminate; try reflexivity; try tauto.

Ltac cmp_cases :=
  change (PosDef.Pos.compare_cont Eq) with Pos.compare in *;
  repeat match goal with
         | |- context [Z.compare ?a ?b] => destruct (Z.compare_spec a b)
         | H : context [Z.compare ?a ?b] |- _ => destruct (Z.compare_spec a b)
         | |- context [Pos.compare ?a ?b] => destruct (Pos.compare_spec a b)
         | H : context [Pos.compare ?a ?b] |- _ => destruct (Pos.compare_spec a b)
         end;
  cbn in *; subst; try discriminate; try reflexivity; try lia.

Lemma SFleb_trans (a b c : spec_float) :
  SFleb a b = true -> SFleb b c = true -> SFleb a c = true.
Proof. unfold SFleb, SFcompare. sf_cases. all: cmp_cases. Qed.

Lemma SFleb_refl (a : spec_float) : SFeqb a a = true -> SFleb a a = true.
Proof. unfold SFleb, SFeqb, SFcompare. sf_cases. all: cmp_cases. Qed.

Lemma SFleb_num (a b : spec_float) :
  SFleb a b = true -> SFeqb a a = true /\ SFeqb b b = true.
Proof. unfold SFleb, SFeqb, SFcompare. sf_cases. all: split; cmp_cases. Qed.

Lemma SFleb_antisym (a b : spec_float) :
  SFleb a b = true -> SFleb b a = true -> SFeqb a b = true.
Proof. unfold SFleb, SFeqb, SFcompare. sf_cases. all: cmp_cases. Qed.

Lemma SFltb_SFleb (a b : spec_float) : SFltb a b = true -> SFleb a b = true.
Proof. unfold SFleb, SFltb, SFcompare. sf_cases. all: cmp_cases. Qed.

Lemma SFltb_not_SFleb (a b : spec_float) :
  SFeqb a a = true -> SFeqb b b = true -> SFltb a b = negb (SFleb b a).
Proof. unfold SFleb, SFltb, SFeqb, SFcompare. sf_cases. all: cmp_cases. Qed.

Lemma SFltb_irrefl (a : spec_float) : SFltb a a = false.
Proof. unfold SFltb, SFcompare. sf_cases. all: cmp_cases. Qed.

Lemma finite_num (x : float) : isfinite x = true -> deq x x = true.
Proof.
  cbn. unfold PrimFloat.is_finite, PrimFloat.is_nan.
  destruct (PrimFloat.eqb x x); [reflexivity|discriminate].
Qed.

#[global] Instance order_laws : OrderLaws float.
Proof.
  split.
  - exact finite_num.
  - vm_compute. reflexivity.
  - intros a b. cbn. rewrite FloatAxioms.leb_spec, !FloatAxioms.eqb_spec. apply SFleb_num.
  - intros a. cbn. rewrite FloatAxioms.leb_spec, FloatAxioms.eqb_spec. apply SFleb_refl.
  - intros a b c. cbn. rewrite !FloatAxioms.leb_spec. apply SFleb_trans.
  - intros a b. cbn. rewrite !FloatAxioms.leb_spec, FloatAxioms.eqb_spec. apply SFleb_antisym.
  - intros a b. cbn. rewrite FloatAxioms.ltb_spec, FloatAxioms.leb_spec. apply SFltb_SFleb.
  - intros a b. cbn. rewrite FloatAxioms.ltb_spec, FloatAxioms.leb_spec, !FloatAxioms.eqb_spec. apply SFltb_not_SFleb.
Qed.

#[global] Instance dne_laws : DneLaws float.
Proof.
  split. intros x _. cbn. rewrite FloatAxioms.ltb_spec, SFltb_irrefl. reflexivity.
Qed.

(** A finite double is a zero or a finite number in the specification. *)
Lemma finite_shape (x : float) :
  isfinite x = true ->
  match Prim2SF x with
  | S754_zero _ | S754_finite _ _ _ => True
  | _ => False
  end.
Proof.
  cbn. unfold PrimFloat.is_finite, PrimFloat.is_nan, PrimFloat.is_infinity.
  rewrite !FloatAxioms.eqb_spec, abs_spec.
  replace (Prim2SF infinity) with (S754_infinity false) by (vm_compute; reflexivity).
  destruct (Prim2SF x) as [s|s| |s m e]; cbn; try discriminate; trivial.
  destruct s; discriminate.
Qed.

(** ** Signs of products *)

Lemma shr_1_nonneg (mrs : shr_record) :
  (0 <= shr_m mrs)%Z -> (0 <= shr_m (shr_1 mrs))%Z.
Proof.
  destruct mrs as [m r s]. destruct m as [|[p|p|]|p]; cbn; lia.
Qed.

Lemma iter_pos_invariant (A : Type) (P : A -> Prop) (f : A -> A) :
  (forall x, P x -> P (f x)) ->
  forall (p : positive) (x : A), P x -> P (iter_pos f p x).
Proof.
  intros Hf. induction p as [p IH|p IH|]; intros x Hx; cbn.
  - apply IH, IH, Hf, Hx.
  - apply IH, IH, Hx.
  - apply Hf, Hx.
Qed.

Lemma shr_nonneg (mrs : shr_record) (e n : Z) :
  (0 <= shr_m mrs)%Z -> (0 <= shr_m (fst (shr mrs e n)))%Z.
Proof.
  intros Hm. unfold shr. destruct n as [|p|p]; cbn [fst]; try exact Hm.
  apply (iter_pos_invariant _ (fun r => (0 <= shr_m r)%Z) shr_1 shr_1_nonneg), Hm.
Qed.

Lemma shr_fexp_nonneg (m e : Z) (l : SpecFloat.location) :
  (0 <= m)%Z -> (0 <= shr_m (fst (shr_fexp prec emax m e l)))%Z.
Proof.
  intros Hm. unfold shr_fexp. apply shr_nonneg.
  destruct l as [|[| |]]; exact Hm.
Qed.

Lemma round_nearest_even_nonneg (m : Z) (l : SpecFloat.location) :
  (0 <= m)%Z -> (0 <= round_nearest_even m l)%Z.
Proof.
  intros Hm. unfold round_nearest_even.
  destruct l as [|[| |]]; try destruct (IntDef.Z.even m); lia.
Qed.

Lemma binary_round_aux_sign (s : bool) (m e : Z) (l : SpecFloat.location) :
  (0 <= m)%Z -> has_sign s (binary_round_aux prec emax s m e l).
Proof.
  intros Hm. unfold binary_round_aux.
  pose proof (shr_fexp_nonneg m e l Hm) as H1.
  destruct (shr_fexp prec emax m e l) as [mrs' e'] eqn:E1. cbn [fst] in H1.
  pose proof (shr_fexp_nonneg _ e' loc_Exact
                (round_nearest_even_nonneg _ (loc_of_shr_record mrs') H1)) as H2.
  destruct (shr_fexp prec emax
              (round_nearest_even (shr_m mrs') (loc_of_shr_record mrs')) e' loc_Exact)
    as [mrs'' e''] eqn:E2. cbn [fst] in H2.
  destruct (shr_m mrs'') as [|p|p]; cbn [has_sign]; try reflexivity; try lia.
  destruct (e'' <=? emax - prec)%Z; reflexivity.
Qed.

Lemma SFmul_nonneg (c w : spec_float) :
  match c with S754_finite false _ _ => True | _ => False end ->
  SFleb (S754_zero false) w = true ->
  SFleb (S754_zero false) (SF64mul c w) = true.
Proof.
  destruct c as [| | |[|] mc ec]; try contradiction. intros _.
  destruct w as [sw|[|]| |[|] mw ew]; cbn; try discriminate; try reflexivity.
  intros _.
  pose proof (binary_round_aux_sign false (Z.pos (mc * mw)) (ec + ew) loc_Exact
                ltac:(lia)) as S.
  unfold SF64mul, SFmul. cbn [xorb].
  destruct (binary_round_aux prec emax false (Z.pos (mc * mw)) (ec + ew) loc_Exact)
    as [s|s| |s m e]; cbn in S; try contradiction; subst; reflexivity.
Qed.

Lemma positive_finite_shape (c : float) :
  isfinite c = true -> dlt (of_int 0) c = true ->
  match Prim2SF c with S754_finite false _ _ => True | _ => False end.
Proof.
  intros F. pose proof (finite_shape c F) as S. cbn.
  rewrite FloatAxioms.ltb_spec.
  replace (Prim2SF 0) with (S754_zero false) by (vm_compute; reflexivity).
  destruct (Prim2SF c) as [s|s| |[|] m e]; cbn; try discriminate; trivial.
Qed.

(** ** The difference of equal values *)

Lemma SFeqb_shape (h l : spec_float) :
  SFeqb h l = true ->
  (exists s s', h = S754_zero s /\ l = S754_zero s')
  \/ (exists s, h = S754_infinity s /\ l = S754_infinity s)
  \/ (exists s m e, h = S754_finite s m e /\ l = S754_finite s m e).
Proof.
  unfold SFeqb, SFcompare.
  destruct h as [[|]|[|]| |[|] mh eh], l as [[|]|[|]| |[|] ml el];
    try discriminate; intros E;
    first [ left; eexists; eexists; split; reflexivity
          | right; left; eexists; split; reflexivity
          | right; right; cmp_cases;
            eexists; eexists; eexists; split; reflexivity ].
Qed.

Lemma SFsub_equal (h l x : spec_float) :
  SFeqb h l = true ->
  SFltb x (SFabs (SF64sub h l)) = true ->
  SFltb x (S754_zero false) = true.
Proof.
  intros E.
  destruct (SFeqb_shape h l E)
    as [(s & s' & -> & ->)|[(s & -> & ->)|(s & m & e & -> & ->)]].
  - destruct s, s'; cbn; trivial.
  - destruct s; destruct x as [sx|sx| |sx mx ex]; cbn; discriminate.
  - unfold SF64sub, SFsub. rewrite Z.sub_diag. cbn. trivial.
Qed.

#[global] Instance sign_laws : SignLaws float.
Proof.
  split.
  - intros c w Fc Pc. cbn. rewrite !FloatAxioms.leb_spec, FloatAxioms.mul_spec.
    replace (Prim2SF 0) with (S754_zero false) by (vm_compute; reflexivity).
    apply SFmul_nonneg, positive_finite_shape; assumption.
  - intros h l x. cbn.
    rewrite FloatAxioms.eqb_spec, !FloatAxioms.ltb_spec, abs_spec,
      FloatAxioms.sub_spec.
    replace (Prim2SF 0) with (S754_zero false) by (vm_compute; reflexivity).
    apply SFsub_equal.
  - split; vm_compute; reflexivity.
  - split; vm_compute; reflexivity.
Qed.

(** ** NaN *)

Lemma SFltb_abs_num (a d : spec_float) :
  SFltb a (SFabs d) = true -> SFeqb d d = true.
Proof. unfold SFltb, SFeqb, SFcompare. sf_cases. all: cmp_cases. Qed.

Lemma SF_nan_or_num (h : spec_float) : h = S754_nan \/ SFeqb h h = true.
Proof.
  unfold SFeqb, SFcompare.
  destruct h as [[|]|[|]| |[|] m e]; auto; right; cmp_cases.
Qed.

Lemma SFsub_num (h l : spec_float) :
  SFeqb (SF64sub h l) (SF64sub h l) = true ->
  SFeqb h h = true /\ SFeqb l l = true.
Proof.
  intros E.
  destruct (SF_nan_or_num h) as [->|Nh].
  { discriminate E. }
  destruct (SF_nan_or_num l) as [->|Nl].
  { destruct h; discriminate E. }
  split; assumption.
Qed.

#[global] Instance nan_laws : NanLaws float.
Proof.
  split.
  - intros a d. cbn. rewrite FloatAxioms.ltb_spec, FloatAxioms.eqb_spec, abs_spec.
    apply SFltb_abs_num.
  - intros h l. cbn. rewrite !FloatAxioms.eqb_spec, FloatAxioms.sub_spec.
    apply SFsub_num.
Qed.

(** ** The largest and the lowest finite double *)

Lemma digits2_pos_bound (m : positive) :
  (Z.pos m < 2 ^ Z.pos (digits2_pos m))%Z.
Proof.
  induction m as [m IH|m IH|]; cbn [digits2_pos];
    rewrite ?Pos2Z.inj_succ, ?Z.pow_succ_r by lia; lia.
Qed.

Lemma bounded_mantissa (m : positive) (e : Z) :
  bounded prec emax m e = true ->
  (e <= 971)%Z /\ (e = 971 -> Z.pos m <= 9007199254740991)%Z.
Proof.
  unfold bounded, canonical_mantissa, fexp, SpecFloat.emin, prec, emax.
  intros B. apply andb_true_iff in B. destruct B as [C E].
  apply Z.eqb_eq in C. apply Z.leb_le in E. split; [lia|].
  intros ->. pose proof (digits2_pos_bound m) as Hd.
  assert (Hd53 : (Z.pos (digits2_pos m) <= 53)%Z) by lia.
  assert (Hp : (2 ^ Z.pos (digits2_pos m) <= 2 ^ 53)%Z)
    by (apply Z.pow_le_mono_r; lia).
  change (2 ^ 53)%Z with 9007199254740992%Z in Hp. lia.
Qed.

(** A finite number whose exponent and mantissa are bounded by [E] and [M]
    lies between the two numbers of mantissa [M] and exponent [E]. *)
Lemma SFleb_finite_bound (s : bool) (m M : positive) (e E : Z) :
  (e < E)%Z \/ (e = E /\ (Z.pos m <= Z.pos M)%Z) ->
  SFleb (S754_finite s m e) (S754_finite false M E) = true
  /\ SFleb (S754_finite true M E) (S754_finite s m e) = true.
Proof.
  intros Hb. unfold SFleb, SFcompare.
  change (PosDef.Pos.compare_cont Eq) with Pos.compare.
  destruct Hb as [Hlt|[-> Hm]]; destruct s; split; try reflexivity.
  - rewrite (proj2 (Z.compare_gt_iff E e)) by lia. reflexivity.
  - rewrite (proj2 (Z.compare_lt_iff e E)) by lia. reflexivity.
  - rewrite Z.compare_refl.
    destruct (Pos.compare_spec M m) as [Eq|L|L]; cbn; try reflexivity. lia.
  - rewrite Z.compare_refl.
    destruct (Pos.compare_spec m M) as [Eq|L|L]; cbn; try reflexivity. lia.
Qed.

Lemma SF_within_bounds (sv : spec_float) :
  SpecFloat.valid_binary prec emax sv = true ->
  match sv with
  | S754_zero _ | S754_finite _ _ _ => True
  | _ => False
  end ->
  SFleb sv (S754_finite false 9007199254740991 971) = true
  /\ SFleb (S754_finite true 9007199254740991 971) sv = true.
Proof.
  intros V S. destruct sv as [s|s| |s m e]; try contradiction.
  - split; reflexivity.
  - change (bounded prec emax m e = true) in V.
    destruct (bounded_mantissa m e V) as [He Hm].
    apply SFleb_finite_bound.
    destruct (Z.eq_dec e 971) as [E|E]; [right; auto|left; lia].
Qed.

Lemma dbl_max_spec : Prim2SF B64.dbl_max = S754_finite false 9007199254740991 971.
Proof. vm_compute. reflexivity. Qed.

Lemma dbl_lowest_spec :
  Prim2SF B64.dbl_lowest = S754_finite true 9007199254740991 971.
Proof. vm_compute. reflexivity. Qed.

Lemma finite_within_bounds (v : float) :
  isfinite v = true ->
  PrimFloat.leb v B64.dbl_max = true /\ PrimFloat.leb B64.dbl_lowest v = true.
Proof.
  intros F. rewrite !FloatAxioms.leb_spec, dbl_max_spec, dbl_lowest_spec.
  apply SF_within_bounds; [apply Prim2SF_valid|apply finite_shape, F].
Qed.

#[global] Instance utility_laws : UtilityLaws float.
Proof.
  split.
  - vm_compute. reflexivity.
  - vm_compute. reflexivity.
  - intros v F. exact (proj1 (finite_within_bounds v F)).
  - intros v F. exact (proj2 (finite_within_bounds v F)).
Qed.

End B64Laws.
(* ================================================================== *)
(** * The width of the range on binary64 *)
(* ================================================================== *)

(** Before [get_range()] has run the width need not be the difference of
    the bounds (claim C1 has no such condition): on a graph as constructed,
    both axes are [unset(1.0), nunset(1.0)] with width 0, and
    [set_range(x, 0, 1)], which is installed, leaves the y axis with width 0
    while its high bound less its low bound is minus infinity; and
    [set_range(x, 1, 1)], which is refused, leaves the x axis itself so. *)
Lemma set_range_width_fresh_graph :
  let g := set_range false 0%float 1%float (new_graph [squares]) in
  let g1 := set_range false 1%float 1%float (new_graph [squares]) in
  rget (g_range g) false = mkAxis 0%float 1%float 1%float
  /\ wd (rget (g_range g) true) = 0%float
  /\ dsub (hi (rget (g_range g) true)) (lo (rget (g_range g) true))
     = neg_infinity
  /\ deq (wd (rget (g_range g) true))
         (dsub (hi (rget (g_range g) true)) (lo (rget (g_range g) true)))
     = false
  /\ wd (rget (g_range g1) false) = 0%float
  /\ deq (wd (rget (g_range g1) false))
         (dsub (hi (rget (g_range g1) false)) (lo (rget (g_range g1) false)))
     = false.
Proof. by_computation. Qed.

(** On the scenario, after [get_range()]: a request with a NaN bound, a
    jump by infinity and a plain request. *)
Lemma set_range_width_invariant_witness :
  let g := scenario (D:=float) in
  let calls := [CallSetRange false nan 1%float;
                CallRangeJump true infinity;
                CallSetRange false 1%float 3%float] in
  widths_ok g
  /\ rget (g_range (run_calls (firstn 3 calls) g)) false
     = mkAxis 1%float 3%float 2%float
  /\ deq (wd (rget (g_range (run_calls (firstn 3 calls) g)) false))
         (dsub (hi (rget (g_range (run_calls (firstn 3 calls) g)) false))
               (lo (rget (g_range (run_calls (firstn 3 calls) g)) false)))
     = true.
Proof.
  cbv zeta.
  assert (Hg : widths_ok (scenario (D:=float))).
  { unfold widths_ok, range_width_ok, width_ok. by_computation. }
  split; [exact Hg|]. split; [vm_compute; reflexivity|].
  exact (set_range_width_invariant (scenario (D:=float))
           [CallSetRange false nan 1%float;
            CallRangeJump true infinity;
            CallSetRange false 1%float 3%float] 3 false Hg).
Defined.

(* ================================================================== *)
(** * get_range: the padded extent of the visible data *)
(* ================================================================== *)

Section GetRange.

Context {D : Type} `{Double D} `{DoubleSqrt D} `{Utility D}.
Context `{!OrderLaws D} `{!UtilityLaws D}.

(** One value: the bounds only move outward, stay finite, and enclose a
    finite value. *)
Lemma scan_value_spec (a : Axis D) (val : D) :
  isfinite (lo a) = true -> isfinite (hi a) = true ->
  let a' := scan_value a val in
  isfinite (lo a') = true /\ isfinite (hi a') = true
  /\ dle (lo a') (lo a) = true /\ dle (hi a) (hi a') = true
  /\ (isfinite val = true -> dle (lo a') val = true /\ dle val (hi a') = true)
  /\ (lo a' = lo a \/ (lo a' = val /\ isfinite val = true))
  /\ (hi a' = hi a \/ (hi a' = val /\ isfinite val = true)).
Proof.
  intros Fl Fh. cbv zeta. unfold scan_value.
  pose proof (finite_is_num _ Fl) as Nl. pose proof (finite_is_num _ Fh) as Nh.
  destruct (isfinite val) eqn:Fv; cbn [negb].
  2:{ repeat split; auto using dle_refl; discriminate. }
  pose proof (finite_is_num _ Fv) as Nv.
  unfold dgt.
  destruct (dlt val (lo a)) eqn:L1; cbn [lo hi wd];
    destruct (dlt (hi a) val) eqn:L2; cbn [lo hi wd];
    repeat match goal with
           | E : dlt _ _ = false |- _ =>
               rewrite dlt_not_dle in E by assumption;
               apply negb_false_iff in E
           | E : dlt _ _ = true |- _ => apply dlt_dle in E
           end;
    repeat split; auto using dle_refl.
Qed.

Lemma scan_values_spec (vals : list D) (a : Axis D) :
  isfinite (lo a) = true -> isfinite (hi a) = true ->
  let a' := fold_left scan_value vals a in
  isfinite (lo a') = true /\ isfinite (hi a') = true
  /\ dle (lo a') (lo a) = true /\ dle (hi a) (hi a') = true
  /\ (forall v, In v vals -> isfinite v = true ->
                dle (lo a') v = true /\ dle v (hi a') = true)
  /\ (lo a' = lo a \/ exists v, In v vals /\ isfinite v = true /\ lo a' = v)
  /\ (hi a' = hi a \/ exists v, In v vals /\ isfinite v = true /\ hi a' = v).
Proof.
  revert a. induction vals as [|val vals IH]; intros a Fl Fh; cbv zeta.
  - cbn. pose proof (finite_is_num _ Fl). pose proof (finite_is_num _ Fh).
    repeat split; auto using dle_refl; contradiction.
  - cbn [fold_left].
    destruct (scan_value_spec a val Fl Fh) as (Fl1 & Fh1 & Ll1 & Lh1 & B1 & A1 & A2).
    cbv zeta in *.
    destruct (IH (scan_value a val) Fl1 Fh1) as (Fl2 & Fh2 & Ll2 & Lh2 & B2 & A3 & A4).
    cbv zeta in *.
    split; [exact Fl2|]. split; [exact Fh2|].
    split; [exact (dle_trans _ _ _ Ll2 Ll1)|].
    split; [exact (dle_trans _ _ _ Lh1 Lh2)|].
    split; [|split].
    + intros v [<-|Hin] Fv.
      * destruct (B1 Fv) as [X Y].
        split; [exact (dle_trans _ _ _ Ll2 X)|exact (dle_trans _ _ _ Y Lh2)].
      * apply B2; assumption.
    + destruct A3 as [E|(v & Hin & Fv & E)].
      * rewrite E. destruct A1 as [E1|[E1 Fv]]; [left; exact E1|].
        right. exists val. split; [left; reflexivity|]. split; assumption.
      * right. exists v. split; [right; exact Hin|]. split; assumption.
    + destruct A4 as [E|(v & Hin & Fv & E)].
      * rewrite E. destruct A2 as [E1|[E1 Fv]]; [left; exact E1|].
        right. exists val. split; [left; reflexivity|]. split; assumption.
      * right. exists v. split; [right; exact Hin|]. split; assumption.
Qed.

Lemma scan_series_spec (y : bool) (l : list (Series D)) (a : Axis D) :
  isfinite (lo a) = true -> isfinite (hi a) = true ->
  let a' := fold_left (scan_series y) l a in
  isfinite (lo a') = true /\ isfinite (hi a') = true
  /\ dle (lo a') (lo a) = true /\ dle (hi a) (hi a') = true
  /\ (forall v, seen l y v -> dle (lo a') v = true /\ dle v (hi a') = true)
  /\ (lo a' = lo a \/ exists v, seen l y v /\ lo a' = v)
  /\ (hi a' = hi a \/ exists v, seen l y v /\ hi a' = v).
Proof.
  revert a. unfold seen. induction l as [|s l IH]; intros a Fl Fh; cbv zeta.
  - cbn. pose proof (finite_is_num _ Fl). pose proof (finite_is_num _ Fh).
    repeat split; auto using dle_refl;
      match goal with E : exists _, _ |- _ => destruct E as (? & [] & _) end.
  - cbn [fold_left].
    assert (S1 : let a1 := scan_series y a s in
                 isfinite (lo a1) = true /\ isfinite (hi a1) = true
                 /\ dle (lo a1) (lo a) = true /\ dle (hi a) (hi a1) = true
                 /\ (forall v, shown s = true -> In v (values s y) ->
                               isfinite v = true ->
                               dle (lo a1) v = true /\ dle v (hi a1) = true)
                 /\ (lo a1 = lo a \/ exists v, seen (s :: l) y v /\ lo a1 = v)
                 /\ (hi a1 = hi a \/ exists v, seen (s :: l) y v /\ hi a1 = v)).
    { cbv zeta. unfold scan_series. destruct (shown s) eqn:Sh; cbn [negb].
      - destruct (scan_values_spec (values s y) a Fl Fh)
          as (F1 & F2 & L1 & L2 & B & A1 & A2). cbv zeta in *.
        repeat split; try assumption.
        + apply B; assumption.
        + apply B; assumption.
        + destruct A1 as [E|(v & Hin & Fv & E)]; [left; exact E|].
          right. exists v. split; [|exact E]. exists s.
          split; [left; reflexivity|]. repeat split; assumption.
        + destruct A2 as [E|(v & Hin & Fv & E)]; [left; exact E|].
          right. exists v. split; [|exact E]. exists s.
          split; [left; reflexivity|]. repeat split; assumption.
      - pose proof (finite_is_num _ Fl). pose proof (finite_is_num _ Fh).
        repeat split; auto using dle_refl; discriminate. }
    cbv zeta in S1. destruct S1 as (Fl1 & Fh1 & Ll1 & Lh1 & B1 & A1 & A2).
    destruct (IH (scan_series y a s) Fl1 Fh1) as (Fl2 & Fh2 & Ll2 & Lh2 & B2 & A3 & A4).
    cbv zeta in *.
    split; [exact Fl2|]. split; [exact Fh2|].
    split; [exact (dle_trans _ _ _ Ll2 Ll1)|].
    split; [exact (dle_trans _ _ _ Lh1 Lh2)|].
    split; [|split].
    + intros v (s' & [<-|Hin] & Sh & Hv & Fv).
      * destruct (B1 v Sh Hv Fv) as [X Y].
        split; [exact (dle_trans _ _ _ Ll2 X)|exact (dle_trans _ _ _ Y Lh2)].
      * apply B2. exists s'. repeat split; assumption.
    + destruct A3 as [E|(v & (s' & Hin & R) & E)].
      * rewrite E. exact A1.
      * right. exists v. split; [|exact E]. exists s'. split; [right; exact Hin|exact R].
    + destruct A4 as [E|(v & (s' & Hin & R) & E)].
      * rewrite E. exact A2.
      * right. exists v. split; [|exact E]. exists s'. split; [right; exact Hin|exact R].
Qed.

(** The scan of [get_range] finds the least and the greatest visible
    value. *)
Lemma scan_data_spec (g : X11Graph D) (y : bool) :
  let a := scan_data y (data g) in
  isfinite (lo a) = true /\ isfinite (hi a) = true
  /\ (forall v, visible_value g y v -> dle (lo a) v = true /\ dle v (hi a) = true)
  /\ ((exists v, visible_value g y v) ->
      (exists v, visible_value g y v /\ deq v (lo a) = true)
      /\ (exists v, visible_value g y v /\ deq v (hi a) = true))
  /\ (~ (exists v, visible_value g y v) -> lo a = unset /\ hi a = nunset).
Proof.
  cbv zeta. unfold scan_data, visible_value.
  destruct (scan_series_spec y (data g) (mkAxis unset nunset (of_int 0))
              unset_finite nunset_finite) as (Fl & Fh & _ & _ & B & A1 & A2).
  cbv zeta in *. cbn [lo hi] in *. unfold seen in *.
  split; [exact Fl|]. split; [exact Fh|]. split; [exact B|].
  split.
  2:{ intros Hno. split.
      - destruct A1 as [E|(w & Hw & _)]; [exact E|].
        exfalso. apply Hno. exists w. exact Hw.
      - destruct A2 as [E|(w & Hw & _)]; [exact E|].
        exfalso. apply Hno. exists w. exact Hw. }
  intros (v & Hv). destruct (B v Hv) as [Lv Hv'].
  assert (Fv : isfinite v = true) by (destruct Hv as (s & _ & _ & _ & F); exact F).
  split.
  - destruct A1 as [E|(w & Hw & E)].
    + exists v. split; [exact Hv|]. apply dle_antisym; [|exact Lv].
      rewrite E. apply unset_top, Fv.
    + exists w. split; [exact Hw|]. rewrite E. apply finite_is_num.
      destruct Hw as (s & _ & _ & _ & F); exact F.
  - destruct A2 as [E|(w & Hw & E)].
    + exists v. split; [exact Hv|]. apply dle_antisym; [exact Hv'|].
      rewrite E. apply nunset_bottom, Fv.
    + exists w. split; [exact Hw|]. rewrite E. apply finite_is_num.
      destruct Hw as (s & _ & _ & _ & F); exact F.
Qed.

Lemma get_range_2_range (g : X11Graph D) (y : bool) :
  rget (g_range (get_range 2 g)) y
  = padded_range (lo (scan_data y (data g))) (hi (scan_data y (data g))).
Proof. destruct y; reflexivity. Qed.

Lemma get_range_2_max_range (g : X11Graph D) :
  g_max_range (get_range 2 g) = g_range (get_range 2 g).
Proof. reflexivity. Qed.

(** X3: after [get_range()], each axis's range is the least and the greatest
    finite value of the shown series, padded by 1% of their span on each
    side, all computed in [double] as the code computes them; and
    [max_range] is that range.  With no finite value shown, the least and
    the greatest are the sentinels [unset(1.0)] and [nunset(1.0)]. *)
Theorem get_range_pads_extent (g : X11Graph D) :
  let g' := get_range 2 g in
  (forall y : bool,
      exists mn mx : D,
        rget (g_range g') y = padded_range mn mx
        /\ isfinite mn = true /\ isfinite mx = true
        /\ (forall v, visible_value g y v -> dle mn v = true /\ dle v mx = true)
        /\ ((exists v, visible_value g y v) ->
            (exists v, visible_value g y v /\ deq v mn = true)
            /\ (exists v, visible_value g y v /\ deq v mx = true))
        /\ (~ (exists v, visible_value g y v) -> mn = unset /\ mx = nunset))
  /\ g_max_range g' = g_range g'.
Proof.
  cbv zeta. split; [|apply get_range_2_max_range].
  intros y. exists (lo (scan_data y (data g))), (hi (scan_data y (data g))).
  destruct (scan_data_spec g y) as (Fl & Fh & B & A & E). cbv zeta in *.
  split; [apply get_range_2_range|]. split; [exact Fl|]. split; [exact Fh|].
  split; [exact B|]. split; [exact A|exact E].
Qed.

End GetRange.

(** The scenario of the specification on binary64: the least and greatest
    values are 0 and 4 on the x axis, and [max_range] is about
    [-0.04, 4.04] by [-0.16, 16.16]. *)
Lemma get_range_pads_extent_witness :
  OrderLaws float /\ UtilityLaws float
  /\ rget (g_range (get_range 2 (new_graph [squares (D:=float)]))) false
     = padded_range 0%float 4%float
  /\ g_max_range (get_range 2 (new_graph [squares (D:=float)]))
     = g_range (get_range 2 (new_graph [squares (D:=float)])).
Proof.
  split; [exact B64Laws.order_laws|]. split; [exact B64Laws.utility_laws|].
  split; [vm_compute; reflexivity|].
  exact (proj2 (get_range_pads_extent (D:=float) (new_graph [squares]))).
Defined.

(** The same scenario on binary64: [max_range] is about [-0.04, 4.04] by
    [-0.16, 16.16], and every point of the series is in range. *)
Example scenario_binary64 :
  let g := get_range 2 (new_graph [squares (D:=float)]) in
  g_max_range g
  = mkRange (mkAxis (-0x1.47ae147ae147bp-5)%float 0x1.028f5c28f5c29p+2%float
                    0x1.051eb851eb852p+2%float)
            (mkAxis (-0x1.47ae147ae147bp-3)%float 0x1.028f5c28f5c29p+4%float
                    0x1.051eb851eb852p+4%float)
  /\ forallb (fun p => in_range g (of_int (fst p)) (of_int (snd p)))
             [(0, 0); (1, 1); (2, 4); (3, 9); (4, 16)]%Z = true.
Proof. by_computation. Qed.

(* ================================================================== *)
(** * set_range on a degenerate request *)
(* ================================================================== *)

Section SetRangeDegenerate.

Context {D : Type} `{Double D} `{DoubleSqrt D} `{Utility D}.
Context `{!OrderLaws D} `{!SignLaws D}.

(** Equal bounds never pass the test when the width of [max_range] is not
    negative. *)
Lemma range_ok_equal_bounds (g : X11Graph D) (y : bool) (low high : D) :
  deq high low = true ->
  dle (of_int 0) (wd (rget (g_max_range g) y)) = true ->
  range_ok g y low high = false.
Proof.
  intros E W. unfold range_ok, dgt.
  destruct (dlt (dmul range_eps (wd (rget (g_max_range g) y)))
                (dabs (dsub high low))) eqn:T; [|reflexivity].
  apply (sub_eq_zero high low _ E) in T.
  destruct range_eps_pos as [Fe Pe].
  pose proof (mul_nonneg _ _ Fe Pe W) as P.
  destruct (dle_num _ _ P) as [N0 Np].
  fold (range_eps (D:=D)) in P, Np.
  rewrite (dlt_not_dle _ _ Np N0), P in T. discriminate T.
Qed.

(** X2: a request with equal bounds (the width of [max_range] on
    that axis not being negative), or any request that fails the test of
    [set_range], sets the whole range, both axes, to [max_range] and changes
    nothing else. *)
Theorem set_range_degenerate_reverts
    (g : X11Graph D) (y : bool) (low high : D) :
  (deq high low = true /\ dle (of_int 0) (wd (rget (g_max_range g) y)) = true)
  \/ range_ok g y low high = false ->
  let g' := set_range y low high g in
  g_range g' = g_max_range g
  /\ g' = set_config g (set_range_field (config g) (g_max_range g)).
Proof.
  intros Hd. cbv zeta.
  assert (T : range_ok g y low high = false).
  { destruct Hd as [[E W]|T]; [apply range_ok_equal_bounds; assumption|exact T]. }
  unfold set_range. rewrite T. split; reflexivity.
Qed.


End SetRangeDegenerate.



(** On binary64, on the scenario zoomed to [1, 2] on the x axis: a request
    with equal bounds gives back [max_range]. *)
Lemma set_range_degenerate_reverts_witness :
  let g1 := set_range false (of_int 1) (of_int 2) (scenario (D:=float)) in
  ((deq (of_int 5 : float) (of_int 5) = true
    /\ dle (of_int 0) (wd (rget (g_max_range g1) true)) = true)
   \/ range_ok g1 true (of_int 5) (of_int 5) = false)
  /\ g_range (set_range true (of_int 5) (of_int 5) g1) = g_max_range g1.
Proof.
  cbv zeta.
  assert (Hd : (deq (of_int 5 : float) (of_int 5) = true
                /\ dle (of_int 0)
                       (wd (rget (g_max_range
                                    (set_range false (of_int 1) (of_int 2)
                                               (scenario (D:=float)))) true)) = true)
               \/ range_ok (set_range false (of_int 1) (of_int 2)
                                      (scenario (D:=float)))
                           true (of_int 5) (of_int 5) = false).
  { left. by_computation. }
  split; [exact Hd|].
  exact (proj1 (set_range_degenerate_reverts (D:=float) _ true (of_int 5) (of_int 5) Hd)).
Defined.

(* ================================================================== *)
(** * The coordinate round trip *)
(* ================================================================== *)






(* ================================================================== *)
(** * The view history: drawing twice *)
(* ================================================================== *)

Section DrawHistory.

Context {D : Type} `{Double D} `{DoubleSqrt D} `{Utility D}.
Context `{!DneLaws D}.

Lemma list_neb_irrefl (A : Type) (eqb : A -> A -> bool) (l : list A) :
  (forall a, eqb a a = true) -> list_neb eqb l l = false.
Proof.
  intros R. unfold list_neb. rewrite Nat.eqb_refl. cbn [andb].
  apply negb_false_iff. induction l as [|a l IH]; cbn; [reflexivity|].
  rewrite R. exact IH.
Qed.

Lemma Range_neb_irrefl (r : Range D) : range_nums r -> Range_neb r r = false.
Proof.
  intros [(X1 & X2 & X3) (Y1 & Y2 & Y3)]. unfold is_num in *.
  unfold Range_neb, Range_eqb, Axis_eqb.
  rewrite X1, X2, X3, Y1, Y2, Y3. reflexivity.
Qed.

(** A configuration without NaN does not differ from itself. *)
Lemma SavedConfig_neb_irrefl (c : SavedConfig D) :
  config_nums c -> SavedConfig_neb c c = false.
Proof.
  intros (N1 & N2 & N3 & N4). unfold SavedConfig_neb.
  rewrite (dne_irrefl _ N1), (dne_irrefl _ N2), !Z.eqb_refl,
    (Range_neb_irrefl _ N3), (Range_neb_irrefl _ N4), !eqb_reflx.
  rewrite (list_neb_irrefl nat Nat.eqb _ Nat.eqb_refl),
    (list_neb_irrefl bool Bool.eqb _ eqb_reflx).
  reflexivity.
Qed.

Lemma back_app (h : list (SavedConfig D)) (c : SavedConfig D) :
  back (h ++ [c]) = Some c.
Proof. unfold back. rewrite rev_app_distr. reflexivity. Qed.

Ltac draw_cases g :=
  destruct g as [c w d sc ck lm mv sm ar orr lr mr h];
  unfold draw, current_config, save_config;
  cbn [win config data small_move saved_config arcs_radio outlines_radio
       lines_radio set_win set_config set_saved_config just_configured
       set_just_configured];
  destruct (just_configured w);
  cbn [win config data small_move saved_config arcs_radio outlines_radio
       lines_radio set_win set_config set_saved_config just_configured
       set_just_configured];
  destruct sm; cbn [negb];
  cbn [win config data small_move saved_config arcs_radio outlines_radio
       lines_radio set_win set_config set_saved_config just_configured
       set_just_configured];
  try destruct (back h) as [last|];
  try match goal with |- context [if ?b then _ else _] => destruct b end;
  cbn [win config data small_move saved_config arcs_radio outlines_radio
       lines_radio set_win set_config set_saved_config just_configured
       set_just_configured].

(** The snapshot [draw] compares and may append. *)
Lemma current_config_draw (g : X11Graph D) :
  current_config (draw g)
  = set_radio_states (set_drawn (config g) true)
      ([arcs_radio g; outlines_radio g; lines_radio g] ++ map (@shown D) (data g)).
Proof. draw_cases g; reflexivity. Qed.

(** What [draw] leaves alone. *)
Lemma draw_frame (g : X11Graph D) :
  config (draw g) = set_drawn (config g) true
  /\ small_move (draw g) = small_move g
  /\ arcs_radio (draw g) = arcs_radio g
  /\ outlines_radio (draw g) = outlines_radio g
  /\ lines_radio (draw g) = lines_radio g
  /\ data (draw g) = data g.
Proof. draw_cases g; repeat split; reflexivity. Qed.

(** The history after [draw]. *)
Lemma saved_config_draw (g : X11Graph D) :
  saved_config (draw g)
  = if small_move g then saved_config g
    else match back (saved_config g) with
         | None => saved_config g ++ [current_config (draw g)]
         | Some last =>
             if SavedConfig_neb (current_config (draw g)) last
             then saved_config g ++ [current_config (draw g)]
             else saved_config g
         end.
Proof.
  rewrite current_config_draw.
  destruct g as [c w d sc ck lm mv sm ar orr lr mr h].
  unfold draw, current_config, save_config.
  cbn [win config data small_move saved_config arcs_radio outlines_radio
       lines_radio set_win set_config set_saved_config].
  destruct (just_configured w);
    cbn [win config data small_move saved_config arcs_radio outlines_radio
         lines_radio set_win set_config set_saved_config];
    destruct sm; cbn [negb]; try reflexivity;
    destruct (back h) as [last|]; try reflexivity;
    match goal with |- context [SavedConfig_neb ?a ?b] =>
      destruct (SavedConfig_neb a b) end; reflexivity.
Qed.

Lemma small_move_draw (g : X11Graph D) : small_move (draw g) = small_move g.
Proof. apply (draw_frame g). Qed.

Lemma current_config_draw_draw (g : X11Graph D) :
  current_config (draw (draw g)) = current_config (draw g).
Proof.
  rewrite (current_config_draw (draw g)).
  destruct (draw_frame g) as (E1 & _ & E2 & E3 & E4 & E5).
  rewrite E1, E2, E3, E4, E5, current_config_draw. reflexivity.
Qed.

(** A [draw] that finds the history as an earlier [draw] left it, and the
    same configuration to snapshot, appends nothing. *)
Lemma draw_again (g g' : X11Graph D) :
  config_nums (config g) ->
  saved_config g' = saved_config (draw g) ->
  small_move g' = small_move g ->
  current_config (draw g') = current_config (draw g) ->
  saved_config (draw g') = saved_config (draw g).
Proof.
  intros N Eh Es Ec.
  assert (Nc : config_nums (current_config (draw g))).
  { rewrite current_config_draw. exact N. }
  rewrite (saved_config_draw g'), Es, Ec, Eh.
  rewrite (saved_config_draw g).
  destruct (small_move g); [reflexivity|].
  destruct (back (saved_config g)) as [last|] eqn:B.
  - destruct (SavedConfig_neb (current_config (draw g)) last) eqn:Ne.
    + rewrite back_app, (SavedConfig_neb_irrefl _ Nc). reflexivity.
    + rewrite B, Ne. reflexivity.
  - rewrite back_app, (SavedConfig_neb_irrefl _ Nc). reflexivity.
Qed.

(** What one [draw] does to the history. *)
Lemma draw_appends_at_most_one (g : X11Graph D) :
  saved_config (draw g) = saved_config g
  \/ (saved_config (draw g) = saved_config g ++ [current_config (draw g)]
      /\ small_move g = false
      /\ match back (saved_config g) with
         | None => True
         | Some last => SavedConfig_neb (current_config (draw g)) last = true
         end).
Proof.
  rewrite (saved_config_draw g).
  destruct (small_move g); [left; reflexivity|].
  destruct (back (saved_config g)) as [last|] eqn:B.
  - destruct (SavedConfig_neb (current_config (draw g)) last) eqn:Ne.
    + right. repeat split.
    + left. reflexivity.
  - right. repeat split.
Qed.

End DrawHistory.

(* ================================================================== *)
(** * prepare *)
(* ================================================================== *)

Section Prepare.

Context {D : Type} `{Double D} `{DoubleSqrt D} `{Utility D}.

(** [prepare] in one piece: new bounds, [drawn] cleared, the view put back
    to [max_range] when it lies off the data, and the scales of the
    result. *)
Lemma prepare_eq (g : X11Graph D) :
  prepare g
  = set_scale (set_config (set_win g (prepared_win g)) (prepared_config g))
              (prepared_scale g).
Proof.
  destruct g as [c w d sc ck lm mv sm ar orr lr mr h].
  destruct c as [c1 c2 c3 c4 c5 r m z dr rs]. destruct w as [b sz ins jc].
  unfold prepare, prepared_scale, prepared_win, prepared_config.
  unfold range_off_data, min_border, g_range, g_max_range, extent, width, height.
  cbn [config win set_config set_win set_drawn set_bounds size_ range max_range
       bounds bounds_at pt_at pt_x pt_y b_extent set_range_field].
  match goal with
  | |- context [if ?b then _ else _] => destruct b
  end; reflexivity.
Qed.

Lemma win_prepare (g : X11Graph D) : win (prepare g) = prepared_win g.
Proof. rewrite prepare_eq. reflexivity. Qed.

Lemma config_prepare (g : X11Graph D) : config (prepare g) = prepared_config g.
Proof. rewrite prepare_eq. reflexivity. Qed.

Lemma scale_prepare (g : X11Graph D) : scale (prepare g) = prepared_scale g.
Proof. rewrite prepare_eq. reflexivity. Qed.

Lemma min_border_prepare (g : X11Graph D) : min_border (prepare g) = min_border g.
Proof. unfold min_border. rewrite win_prepare. reflexivity. Qed.

Lemma prepared_win_prepare (g : X11Graph D) :
  prepared_win (prepare g) = prepared_win g.
Proof.
  unfold prepared_win at 1. rewrite min_border_prepare, win_prepare.
  reflexivity.
Qed.

Lemma range_off_data_same (g1 g2 : X11Graph D) :
  g_range g1 = g_range g2 -> g_max_range g1 = g_max_range g2 ->
  range_off_data g1 = range_off_data g2.
Proof. intros E1 E2. unfold range_off_data. rewrite E1, E2. reflexivity. Qed.

Lemma prepared_config_prepare (g : X11Graph D) :
  prepared_config (prepare g) = prepared_config g.
Proof.
  unfold prepared_config at 1. unfold g_max_range, g_range.
  rewrite config_prepare.
  destruct (range_off_data g) eqn:Off.
  - assert (E : prepared_config g
                = set_range_field (set_drawn (config g) false) (g_max_range g)).
    { unfold prepared_config. rewrite Off. reflexivity. }
    rewrite E. destruct (range_off_data (prepare g)); reflexivity.
  - assert (E : prepared_config g
                = set_range_field (set_drawn (config g) false) (g_range g)).
    { unfold prepared_config. rewrite Off. reflexivity. }
    rewrite (range_off_data_same (prepare g) g), Off.
    + rewrite E. reflexivity.
    + unfold g_range. rewrite config_prepare, E. reflexivity.
    + unfold g_max_range. rewrite config_prepare, E. reflexivity.
Qed.

Lemma prepared_scale_prepare (g : X11Graph D) :
  prepared_scale (prepare g) = prepared_scale g.
Proof.
  unfold prepared_scale.
  rewrite prepared_config_prepare, min_border_prepare, win_prepare.
  reflexivity.
Qed.

(** X5: preparing twice is preparing once: the second pass finds the bounds,
    the view and the scales as the first left them. *)
Theorem prepare_idempotent (g : X11Graph D) : prepare (prepare g) = prepare g.
Proof.
  rewrite (prepare_eq (prepare g)).
  rewrite prepared_win_prepare, prepared_config_prepare, prepared_scale_prepare.
  rewrite (prepare_eq g).
  generalize (prepared_win g) (prepared_config g) (prepared_scale g).
  intros w c s. destruct g. reflexivity.
Qed.

(** [prepare] leaves the bounds as the window less a border of 5% of its
    smaller side all around, each extent being high minus low. *)
Lemma prepare_bounds (g : X11Graph D) (y : bool) :
  let b := bounds_at (win (prepare g)) y in
  b_low b = min_border g
  /\ b_high b = (extent (win g) y - min_border g)%Z
  /\ b_extent b = (b_high b - b_low b)%Z.
Proof. cbv zeta. rewrite win_prepare. destruct y; repeat split. Qed.

End Prepare.

(* ================================================================== *)
(** * Redrawing twice appends one snapshot at most *)
(* ================================================================== *)

Section Redraw.

Context {D : Type} `{Double D} `{DoubleSqrt D} `{Utility D}.
Context `{!DneLaws D}.

Lemma config_nums_prepared (g : X11Graph D) :
  config_nums (config g) -> config_nums (prepared_config g).
Proof.
  intros (N1 & N2 & N3 & N4). unfold prepared_config.
  repeat split; try assumption; cbn [range set_range_field];
    destruct (range_off_data g); first [apply N3|apply N4].
Qed.

Lemma prepare_frame (g : X11Graph D) :
  saved_config (prepare g) = saved_config g
  /\ small_move (prepare g) = small_move g
  /\ arcs_radio (prepare g) = arcs_radio g
  /\ outlines_radio (prepare g) = outlines_radio g
  /\ lines_radio (prepare g) = lines_radio g
  /\ data (prepare g) = data g.
Proof. rewrite prepare_eq. repeat split. Qed.

Lemma prepared_config_draw_prepare (g : X11Graph D) :
  prepared_config (draw (prepare g)) = prepared_config g.
Proof.
  destruct (draw_frame (prepare g)) as (E & _).
  rewrite <- (prepared_config_prepare g).
  unfold prepared_config at 1. unfold g_max_range, g_range. rewrite E.
  rewrite (range_off_data_same (draw (prepare g)) (prepare g)).
  - unfold prepared_config, g_max_range, g_range.
    destruct (range_off_data (prepare g)); destruct (config (prepare g));
      reflexivity.
  - unfold g_range. rewrite E. destruct (config (prepare g)); reflexivity.
  - unfold g_max_range. rewrite E. destruct (config (prepare g)); reflexivity.
Qed.

(** X1: running the redraw path twice in a row, nothing changing in
    between, appends at most one snapshot to the view history: the first
    pass appends one only when the history is empty or its last entry
    differs from the current configuration (and never during a small move),
    the second appends none.  This holds of [draw] alone and of
    [prepare_draw]; the configuration is taken free of NaN, and the graph has
    no call-back registered. *)
Theorem redraw_twice_appends_once (g : X11Graph D) :
  config_nums (config g) ->
  (saved_config (draw (draw g)) = saved_config (draw g)
   /\ saved_config (prepare_draw (prepare_draw g)) = saved_config (prepare_draw g))
  /\ (saved_config (draw g) = saved_config g
      \/ (saved_config (draw g) = saved_config g ++ [current_config (draw g)]
          /\ small_move g = false
          /\ match back (saved_config g) with
             | None => True
             | Some last => SavedConfig_neb (current_config (draw g)) last = true
             end)).
Proof.
  intros N. split; [split|apply draw_appends_at_most_one].
  - apply draw_again; [exact N|reflexivity|apply small_move_draw|].
    apply current_config_draw_draw.
  - unfold prepare_draw.
    assert (Np : config_nums (config (prepare g))).
    { rewrite config_prepare. apply config_nums_prepared, N. }
    destruct (prepare_frame (draw (prepare g))) as (F1 & F2 & F3 & F4 & F5 & F6).
    destruct (draw_frame (prepare g)) as (G1 & G2 & G3 & G4 & G5 & G6).
    apply draw_again; [exact Np|exact F1|rewrite F2; exact G2|].
    rewrite !current_config_draw.
    rewrite F3, F4, F5, F6, G3, G4, G5, G6.
    rewrite config_prepare, prepared_config_draw_prepare, config_prepare.
    reflexivity.
Qed.


End Redraw.

(** The scenario of the specification on binary64: its configuration has no
    NaN, and a second [prepare_draw] leaves the history as the first left
    it. *)
Lemma redraw_twice_appends_once_witness :
  config_nums (config (scenario (D:=float)))
  /\ saved_config (prepare_draw (prepare_draw (scenario (D:=float))))
     = saved_config (prepare_draw (scenario (D:=float))).
Proof.
  assert (N : config_nums (config (scenario (D:=float)))).
  { unfold config_nums, range_nums, axis_nums, is_num. by_computation. }
  split; [exact N|].
  exact (proj2 (proj1 (redraw_twice_appends_once (scenario (D:=float)) N))).
Defined.



(* ================================================================== *)
(** * The movie loop *)
(* ================================================================== *)

Section Movie.

Context {D : Type} `{Double D} `{DoubleSqrt D} `{Utility D}.

(** [press] and [release] report the hit test of their point, whatever the
    state of the control. *)
Lemma release_hit (W : Type) (w : X11Win) (a : Actions D W) (r : Radio D)
    (st : W) (p : Point) :
  res_hit (release w a r st p) = contains w r p.
Proof.
  unfold release. destruct (skip_release r); [reflexivity|].
  destruct (contains w r p); reflexivity.
Qed.

Lemma press_hit (W : Type) (w : X11Win) (a : Actions D W) (r : Radio D)
    (st : W) (p : Point) :
  res_hit (press w a r st p) = contains w r p.
Proof.
  unfold press. destruct (act_visible a st); cbn [negb]; [|reflexivity].
  destruct (contains w r p); [|reflexivity].
  destruct (act_press a st _); reflexivity.
Qed.

(** The hit test reads the bounds and the size of the window, and the
    specification and radius scale of the control. *)
Lemma contains_ext (w w' : X11Win) (r r' : Radio D) (p : Point) :
  bounds w = bounds w' -> size_ w = size_ w' ->
  specification r = specification r' -> radius_scale r = radius_scale r' ->
  contains w r p = contains w' r' p.
Proof.
  intros Eb Es Ep Er.
  unfold contains, radius, location, location_at, corner, radio_min_border,
    bounds_at, width, height.
  rewrite Eb, Es, Ep, Er. reflexivity.
Qed.

Lemma movie_keeps_refl (right : bool) (g : X11Graph D) : movie_keeps right g g.
Proof. unfold movie_keeps. repeat split; auto. Qed.

Lemma movie_radio_set (g : X11Graph D) (right : bool) (r : Radio D) :
  movie_radio (set_movie_radio g right r) right = r.
Proof. destruct right; reflexivity. Qed.

(** Writing a movie radio back with the same placement keeps what the
    movie keeps. *)
Lemma movie_keeps_set_radio (right : bool) (g0 g : X11Graph D) (r : Radio D) :
  movie_keeps right g0 g ->
  specification r = specification (movie_radio g right) ->
  radius_scale r = radius_scale (movie_radio g right) ->
  movie_keeps right g0 (set_movie_radio g right r).
Proof.
  intros (K1 & K2 & K3 & K4 & K5 & K6) Es Er. unfold movie_keeps.
  rewrite movie_radio_set, Es, Er. repeat split; assumption.
Qed.

Lemma release_placement (W : Type) (w : X11Win) (a : Actions D W) (r : Radio D)
    (st : W) (p : Point) :
  specification (res_radio (release w a r st p)) = specification r
  /\ radius_scale (res_radio (release w a r st p)) = radius_scale r.
Proof.
  unfold release. destruct (skip_release r); [split; reflexivity|].
  destruct (contains w r p); [|split; reflexivity].
  destruct (togglable r); split; reflexivity.
Qed.

(** The hit test at any state the movie reaches is the hit test of the
    control as the movie found it, in the bounds it found or in those
    [prepare] computes. *)
Lemma movie_keeps_contains (right : bool) (g0 g : X11Graph D) (p : Point) :
  movie_keeps right g0 g ->
  contains (win g) (movie_radio g right) p = true ->
  contains (win g0) (movie_radio g0 right) p = true
  \/ contains (prepared_win g0) (movie_radio g0 right) p = true.
Proof.
  intros (_ & _ & K3 & [K4|K4] & K5 & K6) Hc.
  - left. rewrite <- Hc. symmetry. apply contains_ext; assumption.
  - right. rewrite <- Hc. symmetry. apply contains_ext; assumption.
Qed.

(** The poll: a hit comes from one of the polled releases, and leaves the
    control off. *)
Lemma poll_spec (right : bool) (events : list XButtonEvent) (g0 g : X11Graph D) :
  movie_keeps right g0 g ->
  let res := poll right events g in
  movie_keeps right g0 (snd res)
  /\ g_range (snd res) = g_range g
  /\ small_move (snd res) = small_move g
  /\ (fst res = true ->
      toggled (movie_radio (snd res) right) = false
      /\ exists ev, In ev events
                    /\ (contains (win g0) (movie_radio g0 right) (ev_point ev) = true
                        \/ contains (prepared_win g0) (movie_radio g0 right)
                                    (ev_point ev) = true)).
Proof.
  revert g. induction events as [|e rest IH]; intros g K; cbv zeta.
  - cbn [poll fst snd]. split; [exact K|]. split; [reflexivity|].
    split; [reflexivity|discriminate].
  - cbn [poll].
    pose proof (release_hit unit (win g) movie_actions (movie_radio g right) tt
                  (ev_point e)) as Hh.
    destruct (release_placement unit (win g) movie_actions (movie_radio g right) tt
                (ev_point e)) as [Ps Pr].
    set (res := release (win g) movie_actions (movie_radio g right) tt (ev_point e))
      in *.
    assert (K1 : movie_keeps right g0 (set_movie_radio g right (res_radio res))).
    { apply movie_keeps_set_radio; assumption. }
    destruct (res_hit res) eqn:Hit.
    + cbn [fst snd]. split; [|split; [|split]].
      * apply movie_keeps_set_radio; [exact K1| |]; rewrite movie_radio_set;
          reflexivity.
      * destruct right; reflexivity.
      * destruct right; reflexivity.
      * intros _. split.
        -- rewrite movie_radio_set. reflexivity.
        -- exists e. split; [left; reflexivity|].
           apply (movie_keeps_contains right g0 g); [exact K|].
           rewrite <- Hh. reflexivity.
    + destruct (IH _ K1) as (I1 & I2 & I3 & I4). cbv zeta in *.
      split; [exact I1|]. split; [|split].
      * rewrite I2. destruct right; reflexivity.
      * rewrite I3. destruct right; reflexivity.
      * intros Hp. destruct (I4 Hp) as [T (ev & Hin & Hc)].
        split; [exact T|]. exists ev. split; [right; exact Hin|exact Hc].
Qed.

Lemma set_range_keeps (y : bool) (low high : D) (g : X11Graph D) :
  saved_config (set_range y low high g) = saved_config g
  /\ g_max_range (set_range y low high g) = g_max_range g
  /\ win (set_range y low high g) = win g
  /\ movie_radios (set_range y low high g) = movie_radios g
  /\ small_move (set_range y low high g) = small_move g.
Proof.
  unfold set_range. destruct (range_ok g y low high); repeat split.
Qed.

Lemma size_prepared_win (g : X11Graph D) : size_ (prepared_win g) = size_ (win g).
Proof. reflexivity. Qed.

Lemma prepared_win_same_size (g g' : X11Graph D) :
  size_ (win g) = size_ (win g') -> bounds (prepared_win g) = bounds (prepared_win g').
Proof.
  intros E. unfold prepared_win, min_border, extent, width, height, set_bounds.
  rewrite E. reflexivity.
Qed.

(** One frame that scrolls and redraws keeps what the movie keeps. *)
Lemma movie_frame_keeps (right : bool) (g0 g : X11Graph D) (dist : D) :
  movie_keeps right g0 g ->
  movie_keeps right g0
    (prepare_draw (set_small_move (range_jump false dist g) true)).
Proof.
  intros (K1 & K2 & K3 & K4 & K5 & K6).
  unfold range_jump.
  destruct (set_range_keeps false
              (dadd (lo (rget (g_range g) false)) dist)
              (dadd (hi (rget (g_range g) false)) dist) g)
    as (S1 & S2 & S3 & S4 & S5).
  set (g2 := set_range false _ _ g) in *.
  set (g3 := set_small_move g2 true).
  assert (E3 : saved_config g3 = saved_config g0 /\ g_max_range g3 = g_max_range g0
               /\ win g3 = win g /\ movie_radios g3 = movie_radios g
               /\ small_move g3 = true).
  { split; [change (saved_config g2 = saved_config g0); congruence|].
    split; [change (g_max_range g2 = g_max_range g0); congruence|].
    split; [exact S3|]. split; [exact S4|reflexivity]. }
  destruct E3 as (T1 & T2 & T3 & T4 & T5).
  unfold prepare_draw.
  destruct (prepare_frame g3) as (P1 & P2 & _).
  assert (Pm : g_max_range (prepare g3) = g_max_range g3).
  { unfold g_max_range. rewrite config_prepare. reflexivity. }
  assert (Pr : movie_radios (prepare g3) = movie_radios g3).
  { rewrite prepare_eq. reflexivity. }
  destruct (draw_frame (prepare g3)) as (F1 & F2 & _).
  assert (Dm : movie_radios (draw (prepare g3)) = movie_radios (prepare g3)
               /\ bounds (win (draw (prepare g3))) = bounds (win (prepare g3))
               /\ size_ (win (draw (prepare g3))) = size_ (win (prepare g3))).
  { generalize (prepare g3). intros q.
    destruct q as [c w d sc ck lm mv sm ar orr lr mr h]. unfold draw.
    cbn [win set_win set_config config small_move saved_config].
    destruct (just_configured w); cbn [win set_win set_config small_move];
      destruct sm; cbn [negb]; try (repeat split; reflexivity);
      cbn [saved_config set_config set_win];
      destruct (back h); try (repeat split; reflexivity);
      match goal with |- context [if ?b then _ else _] => destruct b end;
      repeat split; reflexivity. }
  destruct Dm as (D1 & D2 & D3).
  unfold movie_keeps, movie_radio.
  rewrite D1, Pr, T4, D2, D3, win_prepare.
  split.
  - rewrite saved_config_draw, P2, T5, P1. exact T1.
  - split.
    + unfold g_max_range. rewrite F1. cbn [max_range set_drawn].
      fold (g_max_range (prepare g3)). rewrite Pm. exact T2.
    + split; [rewrite size_prepared_win, T3; exact K3|].
      split; [right; apply prepared_win_same_size; rewrite T3; exact K3|].
      split; [exact K5|exact K6].
Qed.

Lemma movie_loop_spec (right : bool) (g0 : X11Graph D)
    (inputs : list FrameInput) :
  forall (frame last_ms : Z) (g : X11Graph D),
    movie_keeps right g0 g ->
    match movie_loop right inputs frame last_ms g with
    | None => True
    | Some (why, g') =>
        saved_config g' = saved_config g0
        /\ g_max_range g' = g_max_range g0
        /\ toggled (movie_radio g' right) = false
        /\ match why with
           | ReleasedOnRadio =>
               exists fi ev,
                 In fi inputs /\ In ev (polled fi)
                 /\ (contains (win g0) (movie_radio g0 right) (ev_point ev) = true
                     \/ contains (prepared_win g0) (movie_radio g0 right)
                                 (ev_point ev) = true)
           | LeftMaxRange =>
               at_edge g' = true /\ exists fi, In fi inputs /\ late fi = false
           end
    end.
Proof.
  induction inputs as [|fi rest IH]; intros frame last_ms g K; [exact I|].
  cbn [movie_loop].
  destruct (poll_spec right (polled fi) g0 g K) as (P1 & P2 & P3 & P4).
  cbv zeta in *.
  destruct (poll right (polled fi) g) as [hit g1]. cbn [fst snd] in *.
  destruct hit.
  - destruct (P4 eq_refl) as [T (ev & Hin & Hc)].
    destruct P1 as (K1 & K2 & _).
    split; [exact K1|]. split; [exact K2|]. split; [exact T|].
    exists fi, ev. split; [left; reflexivity|]. split; assumption.
  - assert (Next : forall r, match r with
                   | None => True
                   | Some (why, g') =>
                       saved_config g' = saved_config g0
                       /\ g_max_range g' = g_max_range g0
                       /\ toggled (movie_radio g' right) = false
                       /\ match why with
                          | ReleasedOnRadio =>
                              exists fi ev,
                                In fi rest /\ In ev (polled fi)
                                /\ (contains (win g0) (movie_radio g0 right)
                                             (ev_point ev) = true
                                    \/ contains (prepared_win g0)
                                                (movie_radio g0 right)
                                                (ev_point ev) = true)
                          | LeftMaxRange =>
                              at_edge g' = true
                              /\ exists fi, In fi rest /\ late fi = false
                          end
                   end ->
                   match r with
                   | None => True
                   | Some (why, g') =>
                       saved_config g' = saved_config g0
                       /\ g_max_range g' = g_max_range g0
                       /\ toggled (movie_radio g' right) = false
                       /\ match why with
                          | ReleasedOnRadio =>
                              exists fi0 ev,
                                In fi0 (fi :: rest) /\ In ev (polled fi0)
                                /\ (contains (win g0) (movie_radio g0 right)
                                             (ev_point ev) = true
                                    \/ contains (prepared_win g0)
                                                (movie_radio g0 right)
                                                (ev_point ev) = true)
                          | LeftMaxRange =>
                              at_edge g' = true
                              /\ exists fi0, In fi0 (fi :: rest) /\ late fi0 = false
                          end
                   end).
    { intros [[why g']|]; [|trivial]. intros (A & B & C & E).
      split; [exact A|]. split; [exact B|]. split; [exact C|].
      destruct why.
      - destruct E as (fi0 & ev & Hin & R). exists fi0, ev.
        split; [right; exact Hin|exact R].
      - destruct E as (Ed & fi0 & Hin & R). split; [exact Ed|].
        exists fi0. split; [right; exact Hin|exact R]. }
    destruct (late fi) eqn:Late.
    + apply Next, IH, P1.
    + set (dist := dmul (of_int (if right then 1 else -1)%Z) _).
      destruct (at_edge (range_jump false dist g1)) eqn:Edge.
      * unfold range_jump in *.
        destruct (set_range_keeps false
                    (dadd (lo (rget (g_range g1) false)) dist)
                    (dadd (hi (rget (g_range g1) false)) dist) g1)
          as (S1 & S2 & _).
        destruct P1 as (K1 & K2 & _).
        split; [|split; [|split; [|split]]].
        -- rewrite <- K1, <- S1. destruct right; reflexivity.
        -- rewrite <- K2, <- S2. destruct right; reflexivity.
        -- rewrite movie_radio_set. reflexivity.
        -- destruct right; exact Edge.
        -- exists fi. split; [left; reflexivity|exact Late].
      * apply Next, IH, movie_frame_keeps, P1.
Qed.

(** X6: the movie loop returns in two ways only: a button release polled in
    some frame hits the movie control (in the bounds the movie found or in
    those [prepare] computes), or, in a frame that was not late, the
    scrolled x range no longer lies strictly inside [max_range].  Either
    way the control is left off, and the run has appended nothing to the
    view history and has not touched [max_range]. *)
Theorem movie_ends (right : bool) (inputs : list FrameInput) (g : X11Graph D) :
  match movie right inputs g with
  | None => True
  | Some (why, g') =>
      saved_config g' = saved_config g
      /\ g_max_range g' = g_max_range g
      /\ toggled (movie_radio g' right) = false
      /\ match why with
         | ReleasedOnRadio =>
             exists fi ev,
               In fi inputs /\ In ev (polled fi)
               /\ (contains (win g) (movie_radio g right) (ev_point ev) = true
                   \/ contains (prepared_win g) (movie_radio g right)
                               (ev_point ev) = true)
         | LeftMaxRange =>
             at_edge g' = true /\ exists fi, In fi inputs /\ late fi = false
         end
  end.
Proof.
  unfold movie. apply movie_loop_spec, movie_keeps_refl.
Qed.

(** Frames that come late, with nothing polled, never end the loop. *)
Lemma movie_loop_late (right : bool) (inputs : list FrameInput) :
  (forall fi, In fi inputs -> polled fi = [] /\ late fi = true) ->
  forall (frame last_ms : Z) (g : X11Graph D),
    movie_loop right inputs frame last_ms g = None.
Proof.
  induction inputs as [|fi rest IH]; intros Hall frame last_ms g; [reflexivity|].
  destruct (Hall fi (or_introl eq_refl)) as [Hp Hl].
  cbn [movie_loop]. rewrite Hp. cbn [poll]. rewrite Hl.
  apply IH. intros fi' Hin. apply Hall. right. exact Hin.
Qed.

(** C9: the movie loop returns in two ways only.  One is a button release,
    polled in some frame, that hits the movie control.  The other needs no
    event: in a frame that is on time, after the jump of the range, the x
    range no longer lies strictly inside [max_range].  Nothing else ends
    it: however many frames come late with nothing polled, the loop is
    still running. *)
Theorem movie_returns_two_ways
    (right : bool) (inputs : list FrameInput) (g : X11Graph D) :
  match movie right inputs g with
  | None => True
  | Some (ReleasedOnRadio, _) =>
      exists fi ev,
        In fi inputs /\ In ev (polled fi)
        /\ (contains (win g) (movie_radio g right) (ev_point ev) = true
            \/ contains (prepared_win g) (movie_radio g right)
                        (ev_point ev) = true)
  | Some (LeftMaxRange, g') =>
      at_edge g' = true /\ exists fi, In fi inputs /\ late fi = false
  end
  /\ ((forall fi, In fi inputs -> polled fi = [] /\ late fi = true) ->
      movie right inputs g = None).
Proof.
  split.
  - pose proof (movie_loop_spec right g inputs 0 0 g (movie_keeps_refl right g))
      as S.
    unfold movie. destruct (movie_loop right inputs 0 0 g) as [[why g']|];
      [|exact I].
    destruct S as (_ & _ & _ & S). destruct why; exact S.
  - intros Hall. unfold movie. apply movie_loop_late, Hall.
Qed.

End Movie.

(** With the x axis narrowed to [1, 3] and no event at all (claim C9 says
    only a release on the control ends the movie), the movie to the right
    over thirty frames on time returns on reaching the high end of
    [max_range], with the control turned off. *)
Lemma movie_stops_at_edge :
  option_map fst
    (movie true (repeat (mkFrameInput [] false) 30) narrowed_scenario)
  = Some LeftMaxRange
  /\ option_map (fun r => toggled (movie_radio (snd r) true))
       (movie true (repeat (mkFrameInput [] false) 30) narrowed_scenario)
     = Some false
  /\ forallb (fun fi => match polled fi with [] => true | _ => false end)
             (repeat (mkFrameInput [] false) 30) = true.
Proof. by_computation. Qed.

(* ================================================================== *)
(** * set_range keeps NaN out of the range *)
(* ================================================================== *)

Section NoNaN.

Context {D : Type} `{Double D} `{DoubleSqrt D} `{Utility D}.
Context `{!NanLaws D}.

(** A request that passes the test of [set_range] has numbers for bounds
    and for width. *)
Lemma range_ok_nums (g : X11Graph D) (y : bool) (low high : D) :
  range_ok g y low high = true ->
  axis_nums (mkAxis low high (dsub high low)).
Proof.
  unfold range_ok, dgt. intros T. apply lt_abs_num in T.
  destruct (sub_num _ _ T) as [Nh Nl].
  repeat split; assumption.
Qed.

Lemma range_nums_rset (r : Range D) (y : bool) (a : Axis D) :
  range_nums r -> axis_nums a -> range_nums (rset r y a).
Proof. intros [Nx Ny] Na. destruct y; split; assumption. Qed.

(** X7: whatever bounds [set_range] is given, and whatever distance
    [range_jump] is given (NaN and infinities included), the range they
    leave holds no NaN, provided the range and [max_range] held none before;
    [max_range] is not changed. *)
Theorem set_range_never_stores_nan
    (g : X11Graph D) (y : bool) (low high dist : D) :
  range_nums (g_range g) -> range_nums (g_max_range g) ->
  (range_nums (g_range (set_range y low high g))
   /\ g_max_range (set_range y low high g) = g_max_range g)
  /\ (range_nums (g_range (range_jump y dist g))
      /\ g_max_range (range_jump y dist g) = g_max_range g).
Proof.
  intros Nr Nm.
  assert (S : forall l h, range_nums (g_range (set_range y l h g))
                          /\ g_max_range (set_range y l h g) = g_max_range g).
  { intros l h. unfold set_range.
    destruct (range_ok g y l h) eqn:T; [|split; [exact Nm|reflexivity]].
    split; [|reflexivity].
    unfold g_range. cbn [config set_config range set_zoomed set_range_field].
    apply range_nums_rset; [exact Nr|]. apply (range_ok_nums g y), T. }
  split; [apply S|apply S].
Qed.

End NoNaN.

(** On binary64: NaN bounds and an infinite jump on the scenario. *)
Lemma set_range_never_stores_nan_witness :
  let g := scenario (D:=float) in
  range_nums (g_range g) /\ range_nums (g_max_range g)
  /\ range_nums (g_range (set_range false PrimFloat.nan PrimFloat.nan g))
  /\ range_nums (g_range (range_jump true PrimFloat.infinity g)).
Proof.
  cbv zeta.
  assert (Nr : range_nums (g_range (scenario (D:=float)))).
  { unfold range_nums, axis_nums, is_num. by_computation. }
  assert (Nm : range_nums (g_max_range (scenario (D:=float)))).
  { unfold range_nums, axis_nums, is_num. by_computation. }
  split; [exact Nr|]. split; [exact Nm|].
  split.
  - exact (proj1 (proj1 (set_range_never_stores_nan (scenario (D:=float)) false
                           PrimFloat.nan PrimFloat.nan PrimFloat.nan Nr Nm))).
  - exact (proj1 (proj2 (set_range_never_stores_nan (scenario (D:=float)) true
                           PrimFloat.nan PrimFloat.nan PrimFloat.infinity Nr Nm))).
Defined.

(* ================================================================== *)
(** * A click without drag: centre or zoom, clamped to max_range *)
(* ================================================================== *)

Section ClickZoom.

Context {D : Type} `{Double D} `{DoubleSqrt D} `{Utility D}.
Context `{!OrderLaws D}.

Lemma std_max_ge (a b : D) : deq a a = true -> dle a (std_max a b) = true.
Proof.
  intros Na. unfold std_max. destruct (dlt a b) eqn:L.
  - apply dlt_dle, L.
  - apply dle_refl, Na.
Qed.

Lemma std_min_le (a b : D) : deq a a = true -> dle (std_min a b) a = true.
Proof.
  intros Na. unfold std_min. destruct (dlt b a) eqn:L.
  - apply dlt_dle, L.
  - apply dle_refl, Na.
Qed.

Lemma within_max_ext (g g' : X11Graph D) (y : bool) :
  g_range g' = g_range g -> g_max_range g' = g_max_range g ->
  within_max g y -> within_max g' y.
Proof. unfold within_max. intros -> ->. trivial. Qed.

Lemma within_max_at_max (g : X11Graph D) (y : bool) :
  range_nums (g_max_range g) -> g_range g = g_max_range g -> within_max g y.
Proof.
  intros [(X1 & X2 & _) (Y1 & Y2 & _)] E. unfold within_max. rewrite E.
  destruct y; split; apply dle_refl; assumption.
Qed.

(** A request whose bounds lie within [max_range] leaves the axis within
    [max_range], installed or not. *)
Lemma set_range_clamped (g : X11Graph D) (y : bool) (low high : D) :
  range_nums (g_max_range g) ->
  dle (lo (rget (g_max_range g) y)) low = true ->
  dle high (hi (rget (g_max_range g) y)) = true ->
  within_max (set_range y low high g) y.
Proof.
  intros Nm L1 L2. unfold set_range.
  destruct (range_ok g y low high).
  - unfold within_max, g_range, g_max_range.
    cbn [config set_config range max_range set_zoomed set_range_field].
    rewrite rget_rset_same. split; assumption.
  - apply within_max_at_max; [exact Nm|reflexivity].
Qed.

(** [set_range] on one axis leaves the other within [max_range] if it
    was. *)
Lemma set_range_other_axis (g : X11Graph D) (y : bool) (low high : D) :
  range_nums (g_max_range g) ->
  within_max g (negb y) -> within_max (set_range y low high g) (negb y).
Proof.
  intros Nm W. unfold set_range.
  destruct (range_ok g y low high).
  - unfold within_max, g_range, g_max_range in *.
    cbn [config set_config range max_range set_zoomed set_range_field].
    rewrite rget_rset_other. exact W.
  - apply within_max_at_max; [exact Nm|reflexivity].
Qed.

Lemma click_axis_frame (g : X11Graph D) (y : bool) :
  g_max_range (click_axis g y) = g_max_range g
  /\ win (click_axis g y) = win g
  /\ click (click_axis g y) = click g
  /\ small_move (click_axis g y) = small_move g.
Proof.
  unfold click_axis. destruct (affected g y); cbn [negb]; [|repeat split].
  unfold set_range. destruct (range_ok _ _ _ _); repeat split.
Qed.

Lemma affected_same (g g' : X11Graph D) (y : bool) :
  win g' = win g -> click g' = click g -> affected g' y = affected g y.
Proof. intros Ew Ec. unfold affected. rewrite Ew, Ec. reflexivity. Qed.

Lemma click_axis_same_axis (g : X11Graph D) (y : bool) :
  range_nums (g_max_range g) -> affected g y = true ->
  within_max (click_axis g y) y.
Proof.
  intros Nm A. unfold click_axis. rewrite A. cbn [negb].
  assert (Na : axis_nums (rget (g_max_range g) y))
    by (destruct Nm; destruct y; assumption).
  destruct Na as (N1 & N2 & _).
  apply set_range_clamped;
    [exact Nm|apply std_max_ge, N1|apply std_min_le, N2].
Qed.

Lemma click_axis_other_axis (g : X11Graph D) (y : bool) :
  range_nums (g_max_range g) -> within_max g (negb y) ->
  within_max (click_axis g y) (negb y).
Proof.
  intros Nm W. unfold click_axis. destruct (affected g y); cbn [negb]; [|exact W].
  apply set_range_other_axis; assumption.
Qed.

(** [prepare_draw] keeps an axis within [max_range]. *)
Lemma prepare_draw_within (g : X11Graph D) (y : bool) :
  range_nums (g_max_range g) -> within_max g y -> within_max (prepare_draw g) y.
Proof.
  intros Nm W. unfold prepare_draw.
  destruct (draw_frame (prepare g)) as (F & _).
  assert (Em : g_max_range (prepare g) = g_max_range g).
  { unfold g_max_range. rewrite config_prepare. reflexivity. }
  assert (Er : g_range (prepare g)
               = if range_off_data g then g_max_range g else g_range g).
  { unfold g_range at 1. rewrite config_prepare. reflexivity. }
  apply (within_max_ext (prepare g)).
  - unfold g_range. rewrite F. reflexivity.
  - unfold g_max_range. rewrite F. reflexivity.
  - destruct (range_off_data g).
    + apply within_max_at_max; [rewrite Em; exact Nm|congruence].
    + apply (within_max_ext g); assumption.
Qed.


(** X8: a button release after a click without drag (of any class, no
    control having taken it) leaves every axis the click acts on within
    [max_range]: its low bound is not below and its high bound not above
    those of [max_range]; an axis that was within stays within.  The bounds
    asked for are the click point less and plus half the width times the
    factor of the class, clamped by [std::max] and [std::min].  [max_range]
    is taken free of NaN. *)
Theorem click_release_within_max_range
    (event : XButtonEvent) (g : X11Graph D) (y : bool) :
  range_nums (g_max_range g) ->
  moved g = false -> (0 < click_value (click g))%Z ->
  affected g y = true \/ within_max g y ->
  exists g', button_release false event g = Some g'
             /\ within_max g' y
             /\ g_max_range g' = g_max_range g
             /\ click_value (click g') = 0%Z.
Proof.
  intros Nm Mv Cv Hy.
  unfold button_release.
  destruct (Z.eqb_spec (click_value (click g)) 0) as [E|_]; [lia|].
  eexists. split; [reflexivity|].
  unfold release_gesture. rewrite Mv.
  apply Z.ltb_lt in Cv. rewrite Cv.
  set (g1 := click_axis g false).
  set (g2 := click_axis g1 true).
  destruct (click_axis_frame g false) as (M1 & W1 & C1 & S1).
  destruct (click_axis_frame g1 true) as (M2 & W2 & C2 & S2).
  fold g1 in M1, W1, C1, S1. fold g2 in M2, W2, C2, S2.
  assert (Nm1 : range_nums (g_max_range g1)) by (rewrite M1; exact Nm).
  assert (Nm2 : range_nums (g_max_range g2)) by (rewrite M2, M1; exact Nm).
  assert (W : within_max g2 y).
  { destruct y.
    - destruct Hy as [A|Wy].
      + apply click_axis_same_axis; [exact Nm1|].
        rewrite (affected_same g g1 true W1 C1). exact A.
      + unfold g2, click_axis. destruct (affected g1 true) eqn:A; cbn [negb].
        * apply set_range_clamped; [exact Nm1| |].
          -- apply std_max_ge. apply Nm1.
          -- apply std_min_le. apply Nm1.
        * apply (click_axis_other_axis g false Nm Wy).
    - apply (click_axis_other_axis g1 true Nm1).
      destruct Hy as [A|Wy].
      + apply click_axis_same_axis; assumption.
      + unfold g1, click_axis. destruct (affected g false) eqn:A; cbn [negb].
        * apply set_range_clamped; [exact Nm| |].
          -- apply std_max_ge. apply Nm.
          -- apply std_min_le. apply Nm.
        * exact Wy. }
  assert (Fin : forall gf : X11Graph D,
            within_max gf y -> g_max_range gf = g_max_range g ->
            within_max (set_click gf (Click_reset (click gf))) y
            /\ g_max_range (set_click gf (Click_reset (click gf))) = g_max_range g
            /\ click_value (click (set_click gf (Click_reset (click gf)))) = 0%Z).
  { intros gf Wf Mf. split; [exact Wf|]. split; [exact Mf|reflexivity]. }
  destruct (Range_neb (g_range g2) (g_range g) || small_move g2).
  - apply Fin.
    + apply prepare_draw_within; [exact Nm2|exact W].
    + unfold prepare_draw.
      destruct (draw_frame (prepare (set_small_move g2 false))) as (F & _).
      unfold g_max_range at 1. rewrite F, config_prepare.
      rewrite <- M1, <- M2. reflexivity.
  - apply Fin; [exact W|rewrite M2, M1; reflexivity].
Qed.

End ClickZoom.

Lemma click_release_within_max_range_witness :
  range_nums (g_max_range pressed_scenario)
  /\ moved pressed_scenario = false
  /\ (0 < click_value (click pressed_scenario))%Z
  /\ affected pressed_scenario false = true
  /\ exists g', button_release false (mkButtonEvent 640 360 Button3 0)
                  pressed_scenario = Some g'
                /\ within_max g' false
                /\ g_max_range g' = g_max_range pressed_scenario
                /\ click_value (click g') = 0%Z.
Proof.
  assert (N : range_nums (g_max_range pressed_scenario)).
  { unfold range_nums, axis_nums, is_num. by_computation. }
  assert (A : affected pressed_scenario false = true) by (vm_compute; reflexivity).
  split; [exact N|]. split; [reflexivity|]. split; [reflexivity|].
  split; [exact A|].
  exact (click_release_within_max_range (D:=float)
           (mkButtonEvent 640 360 Button3 0) pressed_scenario false
           N eq_refl eq_refl (or_introl A)).
Defined.
(* ================================================================== *)
(** * randomize_order: files that do not open, output that fails,
      and output read again *)
(* ================================================================== *)

Module RandomizeOrderIO.

Import RandomizeOrder.

Local Open Scope string_scope.

Lemma read_files_first_missing (fs : FileSystem) (pre post : list string)
    (name : string) (data : list string) :
  (forall n, In n pre -> fs n <> None) -> fs name = None ->
  read_files fs (pre ++ name :: post) data = inl name.
Proof.
  revert data. induction pre as [|p pre IH]; intros data Hopen Hmiss; cbn.
  - rewrite Hmiss. reflexivity.
  - destruct (fs p) as [content|] eqn:E.
    + apply IH; [|exact Hmiss]. intros n Hn. apply Hopen. right. exact Hn.
    + exfalso. apply (Hopen p); [left; reflexivity|exact E].
Qed.

(** X9: when a named file does not open, the program exits with 1, has
    written nothing to standard output, whatever the files before it held,
    and reports that name: the first, in the order of the arguments, that
    does not open.  The files after it are not looked at. *)
Theorem main_unopenable_file
    (fs : FileSystem) (draws : nat -> nat) (room : option nat)
    (pre post : list string) (name : string) :
  (forall n, In n pre -> fs n <> None) -> fs name = None ->
  main fs draws room (pre ++ name :: post)
  = mkOutcome 1 [] [CouldNotOpen name].
Proof.
  intros Hopen Hmiss. unfold main.
  replace (Z.of_nat (S (List.length (pre ++ name :: post))) <? 2)%Z with false.
  - rewrite (read_files_first_missing fs pre post name [] Hopen Hmiss).
    reflexivity.
  - symmetry. apply Z.ltb_ge. rewrite length_app. cbn [List.length]. lia.
Qed.

(** X10: standard output failing does not change the exit status.  When
    every file opens and standard output takes [n] values and then fails,
    the program still exits with 0; it has written the first [n] of the
    shuffled lines, and it reports the closed output exactly when some line
    was left after the one whose write failed. *)
Theorem main_cout_closed
    (fs : FileSystem) (draws : nat -> nat) (n : nat) (args : list string) :
  args <> [] -> (forall name, In name args -> fs name <> None) ->
  let lines := shuffle draws (flat_map (file_lines fs) args) in
  main fs draws (Some n) args
  = mkOutcome 0 (firstn n lines)
      (if (S n <? List.length lines)%nat then [CoutClosed] else []).
Proof.
  intros Hargs Hopen. cbv zeta. unfold main.
  replace (Z.of_nat (S (List.length args)) <? 2)%Z with false.
  - rewrite (RandomizeOrderProofs.read_files_all_open fs args [] Hopen).
    cbn [app]. rewrite RandomizeOrderProofs.write_all_room. reflexivity.
  - symmetry. apply Z.ltb_ge. destruct args; [contradiction|].
    cbn [List.length]. lia.
Qed.

Lemma has_newline_app (a b : string) :
  has_newline (a ++ b) = has_newline a || has_newline b.
Proof.
  induction a as [|c a IH]; cbn; [reflexivity|].
  rewrite IH, orb_assoc. reflexivity.
Qed.

Lemma append_assoc (a b c : string) : (a ++ b) ++ c = a ++ (b ++ c).
Proof.
  induction a as [|x a IH]; cbn; [reflexivity|]. rewrite IH. reflexivity.
Qed.

Lemma append_nil_r (a : string) : a ++ "" = a.
Proof.
  induction a as [|x a IH]; cbn; [reflexivity|]. rewrite IH. reflexivity.
Qed.

(** Reading one line that is followed by a newline. *)
Lemma getlines_line (l rest acc : string) :
  has_newline l = false ->
  getlines (l ++ String "010" rest) acc = (acc ++ l) :: getlines rest "".
Proof.
  revert acc. induction l as [|c l IH]; intros acc N.
  - cbn. rewrite append_nil_r. reflexivity.
  - cbn in N. apply orb_false_elim in N as [Nc Nl].
    cbn [append getlines]. rewrite Nc, (IH _ Nl), append_assoc. reflexivity.
Qed.

Lemma getlines_no_newline (content acc : string) :
  has_newline acc = false ->
  forall l, In l (getlines content acc) -> has_newline l = false.
Proof.
  revert acc. induction content as [|c rest IH]; intros acc N l Hin.
  - cbn in Hin. destruct acc; [destruct Hin|].
    destruct Hin as [<-|[]]. exact N.
  - cbn [getlines] in Hin. destruct (Ascii.eqb c "010"%char) eqn:Ec.
    + destruct Hin as [<-|Hin]; [exact N|]. apply (IH "" eq_refl l Hin).
    + apply (IH (acc ++ String c "")); [|exact Hin].
      rewrite has_newline_app, N. cbn. rewrite Ec. reflexivity.
Qed.

(** The text written for a list of values, with more text after it. *)
Lemma getlines_stdout_text_app (out : list string) (rest : string) :
  (forall l, In l out -> has_newline l = false) ->
  getlines (stdout_text out ++ rest) "" = (out ++ getlines rest "")%list.
Proof.
  induction out as [|val more IH]; intros N; [reflexivity|].
  cbn [stdout_text fold_right]. fold (stdout_text more).
  rewrite append_assoc. cbn [append].
  rewrite getlines_line by (apply N; left; reflexivity).
  rewrite IH; [reflexivity|].
  intros l Hl. apply N. right. exact Hl.
Qed.

(** X11: the lines the program writes are read back as they were written:
    [getline] over the text that [cout << val << '\n'] leaves for a list of
    values gives that list again, provided no value holds a newline; empty
    values are kept. *)
Theorem getlines_stdout_text (out : list string) :
  (forall l, In l out -> has_newline l = false) ->
  getlines (stdout_text out) "" = out.
Proof.
  intros N. rewrite <- (append_nil_r (stdout_text out)).
  rewrite (getlines_stdout_text_app out "" N). apply app_nil_r.
Qed.

Lemma shuffle_no_newline (draws : nat -> nat) (data : list string) :
  (forall l, In l data -> has_newline l = false) ->
  forall l, In l (shuffle draws data) -> has_newline l = false.
Proof.
  intros N l Hl. apply N.
  apply (Permutation_in l (RandomizeOrderProofs.shuffle_perm _ draws data) Hl).
Qed.

Lemma file_lines_no_newline (fs : FileSystem) (args : list string) :
  forall l, In l (flat_map (file_lines fs) args) -> has_newline l = false.
Proof.
  intros l Hl. apply in_flat_map in Hl as (name & _ & Hl).
  unfold file_lines in Hl. destruct (fs name) as [content|]; [|destruct Hl].
  apply (getlines_no_newline content "" eq_refl l Hl).
Qed.

(** X12: the program run on its own output.  When every file opens and
    standard output does not fail, a second run (with draws of its own)
    over the text the first run wrote exits with 0 and writes a permutation
    of the lines of the first run's input files: no line is split, joined,
    lost or added on the way, a last line without its newline and empty
    lines included. *)
Theorem main_on_own_output
    (fs : FileSystem) (draws draws' : nat -> nat) (args : list string)
    (name' : string) :
  args <> [] -> (forall name, In name args -> fs name <> None) ->
  let first := main fs draws None args in
  let second := main (piped (stdout_text (cout first))) draws' None [name'] in
  file_lines (piped (stdout_text (cout first))) name' = cout first
  /\ exit_status second = 0%Z
  /\ cerr second = []
  /\ Permutation (cout second) (flat_map (file_lines fs) args).
Proof.
  intros Hargs Hopen. cbv zeta.
  assert (E1 : main fs draws None args
               = mkOutcome 0 (shuffle draws (flat_map (file_lines fs) args)) []).
  { unfold main.
    replace (Z.of_nat (S (List.length args)) <? 2)%Z with false.
    - rewrite (RandomizeOrderProofs.read_files_all_open fs args [] Hopen).
      cbn [app]. rewrite RandomizeOrderProofs.write_all_open. reflexivity.
    - symmetry. apply Z.ltb_ge. destruct args; [contradiction|].
      cbn [List.length]. lia. }
  rewrite E1. cbn [cout].
  set (lines := shuffle draws (flat_map (file_lines fs) args)).
  assert (R : file_lines (piped (stdout_text lines)) name' = lines).
  { unfold file_lines, piped. rewrite <- (append_nil_r (stdout_text lines)).
    rewrite getlines_stdout_text_app; [apply app_nil_r|].
    apply shuffle_no_newline, file_lines_no_newline. }
  split; [exact R|].
  assert (E2 : main (piped (stdout_text lines)) draws' None [name']
               = mkOutcome 0 (shuffle draws' lines) []).
  { unfold main. change (Z.of_nat (S (List.length [name'])) <? 2)%Z with false.
    rewrite (RandomizeOrderProofs.read_files_all_open
               (piped (stdout_text lines)) [name'] [])
      by (intros; discriminate).
    cbn [app flat_map]. rewrite app_nil_r, R.
    rewrite RandomizeOrderProofs.write_all_open. reflexivity. }
  rewrite E2. cbn [exit_status cerr cout]. repeat split.
  apply Permutation_trans with lines; apply RandomizeOrderProofs.shuffle_perm.
Qed.

End RandomizeOrderIO.

(** The second of two files does not open. *)
Lemma main_unopenable_file_witness :
  (forall n, In n ["a.txt"]%string -> two_files n <> None)
  /\ two_files "c.txt"%string = None
  /\ RandomizeOrder.main two_files (fun i => i) None
       (["a.txt"%string] ++ "c.txt"%string :: ["b.txt"%string])
     = RandomizeOrder.mkOutcome 1 [] [RandomizeOrder.CouldNotOpen "c.txt"%string].
Proof.
  assert (Hopen : forall n, In n ["a.txt"]%string -> two_files n <> None).
  { intros n [<-|[]]; discriminate. }
  split; [exact Hopen|]. split; [reflexivity|].
  exact (RandomizeOrderIO.main_unopenable_file two_files (fun i => i) None
           ["a.txt"]%string ["b.txt"]%string "c.txt"%string Hopen eq_refl).
Defined.

(** Standard output takes two of the four lines. *)
Lemma main_cout_closed_witness :
  ["a.txt"; "b.txt"]%string <> []
  /\ (forall name, In name ["a.txt"; "b.txt"]%string -> two_files name <> None)
  /\ RandomizeOrder.main two_files (fun i => i + 4) (Some 2) ["a.txt"; "b.txt"]%string
     = RandomizeOrder.mkOutcome 0 ["three"; "two"]%string [RandomizeOrder.CoutClosed].
Proof.
  assert (Hargs : ["a.txt"; "b.txt"]%string <> []) by discriminate.
  assert (Hopen : forall name, In name ["a.txt"; "b.txt"]%string ->
                               two_files name <> None).
  { intros name [<-|[<-|[]]]; discriminate. }
  split; [exact Hargs|]. split; [exact Hopen|].
  exact (RandomizeOrderIO.main_cout_closed two_files (fun i => i + 4) 2
           ["a.txt"; "b.txt"]%string Hargs Hopen).
Defined.

(** A list with an empty value in it. *)
Lemma getlines_stdout_text_witness :
  (forall l, In l ["one"; ""; "two"]%string -> has_newline l = false)
  /\ RandomizeOrder.getlines (stdout_text ["one"; ""; "two"]%string) ""%string
     = ["one"; ""; "two"]%string.
Proof.
  assert (N : forall l, In l ["one"; ""; "two"]%string -> has_newline l = false).
  { intros l [<-|[<-|[<-|[]]]]; reflexivity. }
  split; [exact N|].
  exact (RandomizeOrderIO.getlines_stdout_text ["one"; ""; "two"]%string N).
Defined.

(** The two files, shuffled, and the output shuffled again. *)
Lemma main_on_own_output_witness :
  ["a.txt"; "b.txt"]%string <> []
  /\ (forall name, In name ["a.txt"; "b.txt"]%string -> two_files name <> None)
  /\ Permutation
       (RandomizeOrder.cout
          (RandomizeOrder.main
             (piped (stdout_text
                       (RandomizeOrder.cout
                          (RandomizeOrder.main two_files (fun i => i + 4) None
                             ["a.txt"; "b.txt"]%string))))
             (fun i => i) None ["-"]%string))
       (flat_map (RandomizeOrder.file_lines two_files) ["a.txt"; "b.txt"]%string).
Proof.
  assert (Hargs : ["a.txt"; "b.txt"]%string <> []) by discriminate.
  assert (Hopen : forall name, In name ["a.txt"; "b.txt"]%string ->
                               two_files name <> None).
  { intros name [<-|[<-|[]]]; discriminate. }
  split; [exact Hargs|]. split; [exact Hopen|].
  exact (proj2 (proj2 (proj2
           (RandomizeOrderIO.main_on_own_output two_files (fun i => i + 4)
              (fun i => i) ["a.txt"; "b.txt"]%string "-"%string Hargs Hopen)))).
Defined.
(* ================================================================== *)
(** * A drag of button 1 with no extent along an axis *)
(* ================================================================== *)

Section DragSelect.

Context {D : Type} `{Double D} `{DoubleSqrt D} `{Utility D}.
Context `{!OrderLaws D} `{!SignLaws D} `{!NanLaws D}.

(** Equal bounds, numbers or not, make [set_range] reset the range. *)
Lemma set_range_equal_bounds (g : X11Graph D) (y : bool) (v : D) :
  dle (of_int 0) (wd (rget (g_max_range g) y)) = true ->
  set_range y v v g = set_config g (set_range_field (config g) (g_max_range g)).
Proof.
  intros W. unfold set_range.
  destruct (range_ok g y v v) eqn:T; [|reflexivity].
  exfalso. destruct (range_ok_nums g y v v T) as (Nv & _).
  rewrite (range_ok_equal_bounds g y v v Nv W) in T. discriminate T.
Qed.

Lemma select_axis_frame (release_pt : Point) (g : X11Graph D) (y : bool) :
  g_max_range (select_axis release_pt g y) = g_max_range g
  /\ win (select_axis release_pt g y) = win g
  /\ click (select_axis release_pt g y) = click g.
Proof.
  unfold select_axis. destruct (affected g y); cbn [negb]; [|repeat split].
  unfold set_range. destruct (range_ok _ _ _ _); repeat split.
Qed.

(** The axis a drag has no extent along is reset by its own pass. *)
Lemma select_axis_no_extent (release_pt : Point) (g : X11Graph D) (y : bool) :
  affected g y = true ->
  pt_at release_pt y = pt_at (click_point (click g)) y ->
  dle (of_int 0) (wd (rget (g_max_range g) y)) = true ->
  g_range (select_axis release_pt g y) = g_max_range g.
Proof.
  intros A E W. unfold select_axis. rewrite A, E. cbn [negb].
  rewrite Z.min_id, Z.max_id.
  destruct y; rewrite set_range_equal_bounds by exact W; reflexivity.
Qed.

(** A pass over the other axis leaves an axis that is at [max_range]
    there. *)
Lemma select_axis_keeps_reset (release_pt : Point) (g : X11Graph D) (y : bool) :
  rget (g_range g) (negb y) = rget (g_max_range g) (negb y) ->
  rget (g_range (select_axis release_pt g y)) (negb y)
  = rget (g_max_range g) (negb y).
Proof.
  intros E. unfold select_axis. destruct (affected g y); cbn [negb]; [|exact E].
  unfold set_range. destruct (range_ok _ _ _ _).
  - unfold g_range.
    cbn [config set_config range set_zoomed set_range_field].
    fold (g_range g). rewrite rget_rset_other. exact E.
  - reflexivity.
Qed.

Lemma g_range_prepare_draw (g : X11Graph D) :
  g_range (prepare_draw g)
  = (if range_off_data g then g_max_range g else g_range g)
  /\ g_max_range (prepare_draw g) = g_max_range g.
Proof.
  unfold prepare_draw. destruct (draw_frame (prepare g)) as (F & _).
  split.
  - unfold g_range at 1. rewrite F, config_prepare. reflexivity.
  - unfold g_max_range at 1. rewrite F, config_prepare. reflexivity.
Qed.

Lemma moved_prepare_draw (g : X11Graph D) :
  moved (prepare_draw g) = moved g.
Proof.
  unfold prepare_draw. rewrite prepare_eq.
  destruct g as [c w d sc ck lm mv sm ar orr lr mr h].
  unfold draw.
  cbn [win set_scale set_config set_win just_configured small_move negb
       saved_config config].
  repeat match goal with
         | |- context [if ?b then _ else _] => destruct b
         | |- context [match ?o with Some _ => _ | None => _ end] => destruct o
         end; reflexivity.
Qed.

(** X14: a drag of button 1 whose release has the same pixel coordinate as
    the press along an axis it acts on does not select a zero-width range
    there: that axis ends at [max_range]; and when that axis is the y axis
    (a horizontal drag inside the plot), the whole range, x axis included,
    ends at [max_range], the dragged x extent being dropped.  The width of
    [max_range] on the axis is taken not negative; no control or call-back
    has taken the release. *)
Theorem drag_without_extent_resets
    (event : XButtonEvent) (g : X11Graph D) (y : bool) :
  moved g = true -> click_value (click g) = 1%Z ->
  affected g y = true ->
  pt_at (ev_point event) y = pt_at (click_point (click g)) y ->
  dle (of_int 0) (wd (rget (g_max_range g) y)) = true ->
  exists g', button_release false event g = Some g'
             /\ rget (g_range g') y = rget (g_max_range g) y
             /\ (y = true -> g_range g' = g_max_range g)
             /\ g_max_range g' = g_max_range g
             /\ moved g' = false
             /\ click_value (click g') = 0%Z.
Proof.
  intros Mv Cv A E W.
  unfold button_release. rewrite Cv. cbn [Z.eqb Pos.eqb].
  eexists. split; [reflexivity|].
  unfold release_gesture. rewrite Mv, Cv. cbn [Z.eqb Pos.eqb].
  set (g1 := select_axis (ev_point event) g false).
  set (g2 := select_axis (ev_point event) g1 true).
  destruct (select_axis_frame (ev_point event) g false) as (M1 & W1 & C1).
  destruct (select_axis_frame (ev_point event) g1 true) as (M2 & W2 & C2).
  fold g1 in M1, W1, C1. fold g2 in M2, W2, C2.
  assert (R : rget (g_range g2) y = rget (g_max_range g) y
              /\ (y = true -> g_range g2 = g_max_range g)).
  { destruct y.
    - assert (R2 : g_range g2 = g_max_range g).
      { unfold g2. rewrite select_axis_no_extent.
        - exact M1.
        - rewrite (affected_same g g1 true W1 C1). exact A.
        - rewrite C1. exact E.
        - rewrite M1. exact W. }
      split; [rewrite R2; reflexivity|intros _; exact R2].
    - split; [|discriminate].
      assert (R1 : g_range g1 = g_max_range g)
        by (apply select_axis_no_extent; assumption).
      rewrite <- M1. apply (select_axis_keeps_reset (ev_point event) g1 true).
      cbn [negb]. rewrite R1, M1. reflexivity. }
  destruct R as [Ry Rall].
  set (g3 := set_moved g2 false).
  assert (R3 : g_range g3 = g_range g2) by reflexivity.
  assert (M3 : g_max_range g3 = g_max_range g) by (rewrite <- M1, <- M2; reflexivity).
  assert (Fin : forall gf : X11Graph D,
            rget (g_range gf) y = rget (g_max_range g) y ->
            (y = true -> g_range gf = g_max_range g) ->
            g_max_range gf = g_max_range g -> moved gf = false ->
            rget (g_range (set_click gf (Click_reset (click gf)))) y
            = rget (g_max_range g) y
            /\ (y = true ->
                g_range (set_click gf (Click_reset (click gf))) = g_max_range g)
            /\ g_max_range (set_click gf (Click_reset (click gf))) = g_max_range g
            /\ moved (set_click gf (Click_reset (click gf))) = false
            /\ click_value (click (set_click gf (Click_reset (click gf)))) = 0%Z).
  { intros gf F1 F2 F3 F4. repeat split; assumption. }
  destruct (Range_neb (g_range g3) (g_range g) || small_move g3).
  - destruct (g_range_prepare_draw (set_small_move g3 false)) as [Rp Mp].
    change (g_range (set_small_move g3 false)) with (g_range g2) in Rp.
    change (g_max_range (set_small_move g3 false)) with (g_max_range g3) in Rp, Mp.
    rewrite M3 in Rp, Mp.
    apply Fin.
    + rewrite Rp. destruct (range_off_data _); [reflexivity|exact Ry].
    + intros Ey. rewrite Rp. destruct (range_off_data _); [reflexivity|].
      apply Rall, Ey.
    + exact Mp.
    + rewrite moved_prepare_draw. reflexivity.
  - apply Fin; [exact Ry|exact Rall|exact M3|reflexivity].
Qed.

End DragSelect.

(** A horizontal drag from (300, 360) to (900, 360) on the narrowed view:
    the view goes back to [max_range]. *)
Lemma drag_without_extent_resets_witness :
  moved dragged_scenario = true
  /\ click_value (click dragged_scenario) = 1%Z
  /\ affected dragged_scenario true = true
  /\ pt_at (ev_point (mkButtonEvent 900 360 Button1 0)) true
     = pt_at (click_point (click dragged_scenario)) true
  /\ dle (of_int 0) (wd (rget (g_max_range dragged_scenario) true)) = true
  /\ Range_neb (g_range dragged_scenario) (g_max_range dragged_scenario) = true
  /\ exists g',
       button_release false (mkButtonEvent 900 360 Button1 0) dragged_scenario
       = Some g'
       /\ rget (g_range g') true = rget (g_max_range dragged_scenario) true
       /\ (true = true -> g_range g' = g_max_range dragged_scenario)
       /\ g_max_range g' = g_max_range dragged_scenario
       /\ moved g' = false
       /\ click_value (click g') = 0%Z.
Proof.
  assert (A : affected dragged_scenario true = true) by (vm_compute; reflexivity).
  assert (W : dle (of_int 0) (wd (rget (g_max_range dragged_scenario) true)) = true)
    by (vm_compute; reflexivity).
  split; [reflexivity|]. split; [reflexivity|]. split; [exact A|].
  split; [reflexivity|]. split; [exact W|]. split; [vm_compute; reflexivity|].
  exact (drag_without_extent_resets (D:=float)
           (mkButtonEvent 900 360 Button1 0) dragged_scenario true
           eq_refl eq_refl A eq_refl W).
Defined.
(* ================================================================== *)
(** * Going back to the previous view *)
(* ================================================================== *)

Section PreviousViewProofs.

Context {D : Type} `{Double D} `{DoubleSqrt D} `{Utility D}.
Context `{!DneLaws D}.

Lemma restore_series_shown (states : list bool) (d : list (Series D)) :
  List.length states = List.length d ->
  exists d', restore_series states d = Some d'
             /\ map (@shown D) d' = states.
Proof.
  revert states. induction d as [|s d IH]; intros [|b states] L;
    try discriminate L.
  - exists []. split; reflexivity.
  - injection L as L. destruct (IH states L) as (d' & E & M).
    exists (mkSeries (xs s) (ys s) b :: d'). cbn [restore_series].
    rewrite E. split; [reflexivity|]. cbn [map shown]. rewrite M. reflexivity.
Qed.

Lemma set_range_field_same (c : SavedConfig D) : set_range_field c (range c) = c.
Proof. destruct c. reflexivity. Qed.

Lemma set_drawn_back (c : SavedConfig D) :
  drawn c = true -> set_drawn (set_drawn c false) true = c.
Proof. destruct c. cbn. intros ->. reflexivity. Qed.

Lemma set_radio_states_same (c : SavedConfig D) :
  set_radio_states c (radio_states c) = c.
Proof. destruct c. reflexivity. Qed.

(** X15: going back one view.  With the history ending in the snapshots
    [c1; c2], the release action of the previous-view control drops [c2],
    restores [c1] and redraws without appending anything: the history ends
    in [c1], and the configuration of the graph, the toggle states of its
    saved radios included, is [c1] again.  [c1] is a snapshot as [draw]
    takes them (drawn, one state per saved radio), free of NaN, and its view
    is not off the data. *)
Theorem previous_view_restores
    (g : X11Graph D) (h : list (SavedConfig D)) (c1 c2 : SavedConfig D) :
  saved_config g = h ++ [c1; c2] ->
  List.length (radio_states c1) = 3 + List.length (data g) ->
  drawn c1 = true -> config_nums c1 ->
  range_off_data (set_config g c1) = false ->
  exists g', previous_view g = Some g'
             /\ saved_config g' = h ++ [c1]
             /\ config g' = c1
             /\ current_config g' = c1.
Proof.
  intros Hh Hl Hd Hn Hr.
  unfold previous_view. rewrite Hh.
  assert (L1 : (1 <? List.length (h ++ [c1; c2]))%nat = true).
  { apply Nat.ltb_lt. rewrite length_app. cbn [List.length]. lia. }
  rewrite L1. cbv zeta.
  assert (Rl : removelast (h ++ [c1; c2]) = h ++ [c1]).
  { change [c1; c2] with ([c1] ++ [c2]). rewrite app_assoc.
    apply removelast_last. }
  rewrite Rl, back_app.
  unfold restore_config.
  destruct (radio_states c1) as [|a [|o [|l rest]]] eqn:Er;
    try (cbn [List.length] in Hl; lia).
  cbn [List.length] in Hl.
  assert (Hl' : List.length rest = List.length (data g)) by lia.
  destruct (restore_series_shown rest (data g) Hl') as (d' & Ed & Md).
  cbn [data set_saved_config]. rewrite Ed.
  cbn [win scale click last_motion moved small_move movie_radios saved_config
       set_saved_config].
  set (g1 := mkGraph c1 (win g) d' (scale g) (click g) (last_motion g)
               (moved g) (small_move g) a o l (movie_radios g) (h ++ [c1])).
  assert (Off : range_off_data g1 = false) by exact Hr.
  assert (Cp : config (prepare g1) = set_drawn c1 false).
  { rewrite config_prepare. unfold prepared_config. rewrite Off.
    change (config g1) with c1. change (g_range g1) with (range c1).
    destruct c1; reflexivity. }
  destruct (prepare_frame g1) as (P1 & P2 & P3 & P4 & P5 & P6).
  assert (Cur : current_config (draw (prepare g1)) = c1).
  { rewrite current_config_draw, Cp, P3, P4, P5, P6.
    rewrite (set_drawn_back c1 Hd).
    change (data g1) with d'. rewrite Md.
    change ([arcs_radio g1; outlines_radio g1; lines_radio g1] ++ rest)
      with (a :: o :: l :: rest).
    rewrite <- Er. apply set_radio_states_same. }
  exists (prepare_draw g1). split; [reflexivity|].
  unfold prepare_draw. split; [|split; [|exact Cur]].
  - rewrite saved_config_draw, Cur, P1, P2.
    change (saved_config g1) with (h ++ [c1]).
    destruct (small_move g1); [reflexivity|].
    rewrite back_app, (SavedConfig_neb_irrefl c1 Hn). reflexivity.
  - destruct (draw_frame (prepare g1)) as (F & _).
    rewrite F, Cp. apply set_drawn_back, Hd.
Qed.

End PreviousViewProofs.

(** Back from the narrowed view to the first one. *)
Lemma previous_view_restores_witness :
  let c1 := current_config first_view in
  let c2 := current_config second_view in
  saved_config second_view = [] ++ [c1; c2]
  /\ List.length (radio_states c1) = 3 + List.length (data second_view)
  /\ drawn c1 = true
  /\ config_nums c1
  /\ range_off_data (set_config second_view c1) = false
  /\ Range_neb (g_range second_view) (range c1) = true
  /\ exists g', previous_view second_view = Some g'
                /\ saved_config g' = [] ++ [c1]
                /\ config g' = c1
                /\ current_config g' = c1.
Proof.
  cbv zeta.
  assert (Hh : saved_config second_view
               = [] ++ [current_config first_view; current_config second_view])
    by (vm_compute; reflexivity).
  assert (Hn : config_nums (current_config first_view)).
  { unfold config_nums, range_nums, axis_nums, is_num. by_computation. }
  assert (Hr : range_off_data (set_config second_view (current_config first_view))
               = false) by (vm_compute; reflexivity).
  split; [exact Hh|]. split; [reflexivity|]. split; [reflexivity|].
  split; [exact Hn|]. split; [exact Hr|]. split; [vm_compute; reflexivity|].
  exact (previous_view_restores (D:=float) second_view []
           (current_config first_view) (current_config second_view)
           Hh eq_refl eq_refl Hn Hr).
Defined.
(* ================================================================== *)
(** * The requests of draw cover every item once *)
(* ================================================================== *)

Section Batches.

Variable A : Type.

Lemma skipn_past (items : list A) (n : nat) :
  List.length items <= n -> skipn n items = [].
Proof. apply skipn_all2. Qed.

Lemma draw_batches_from (block : Z) (items : list A) (fuel : nat) (bs : Z) :
  (0 < block)%Z ->
  (Z.of_nat (List.length items) + block <= 2 ^ 32)%Z ->
  (0 <= bs)%Z ->
  (Z.to_nat (Z.of_nat (List.length items) - bs) <= fuel)%nat ->
  exists requests,
    draw_batches (S fuel) block items bs = Some requests
    /\ List.concat requests = skipn (Z.to_nat bs) items
    /\ Forall (fun r => (0 < Z.of_nat (List.length r) <= block)%Z) requests.
Proof.
  intros Hb Hs. revert bs.
  induction fuel as [|fuel IH]; intros bs H0 Hf.
  - assert (Hge : (Z.of_nat (List.length items) <= bs)%Z) by lia.
    cbn [draw_batches]. apply Z.ltb_ge in Hge as Hlt. rewrite Hlt.
    exists []. split; [reflexivity|]. split; [|constructor].
    symmetry. apply skipn_past. lia.
  - remember (S fuel) as f eqn:Ef. cbn [draw_batches]. cbv zeta.
    destruct (Z.ltb_spec bs (Z.of_nat (List.length items))) as [Hlt|Hge].
    + assert (M32 : ((bs + block) mod 2 ^ 32 = bs + block)%Z)
        by (apply Z.mod_small; lia).
      assert (M64 : ((bs + block) mod 2 ^ 64 = bs + block)%Z)
        by (apply Z.mod_small; lia).
      assert (M64' : ((Z.of_nat (List.length items) - bs) mod 2 ^ 64
                      = Z.of_nat (List.length items) - bs)%Z)
        by (apply Z.mod_small; lia).
      rewrite M32, M64, M64'. subst f.
      destruct (IH (bs + block)%Z) as (rest & E & C & F); [lia|lia|].
      rewrite E.
      destruct (Z.ltb_spec (bs + block) (Z.of_nat (List.length items)))
        as [Hin|Hout].
      * replace (block =? 0)%Z with false by (symmetry; apply Z.eqb_neq; lia).
        eexists. split; [reflexivity|]. split.
        -- cbn [List.concat]. rewrite C.
           replace (Z.to_nat (bs + block))
             with (Z.to_nat block + Z.to_nat bs)%nat by lia.
           rewrite <- skipn_skipn. apply firstn_skipn.
        -- constructor; [|exact F].
           rewrite length_firstn, length_skipn. lia.
      * replace (Z.of_nat (List.length items) - bs =? 0)%Z with false
          by (symmetry; apply Z.eqb_neq; lia).
        eexists. split; [reflexivity|]. split.
        -- cbn [List.concat]. rewrite C.
           rewrite (skipn_past items (Z.to_nat (bs + block))) by lia.
           rewrite app_nil_r. apply firstn_all2.
           rewrite length_skipn. lia.
        -- constructor; [|exact F].
           rewrite length_firstn, length_skipn. lia.
    + exists []. split; [reflexivity|]. split; [|constructor].
      symmetry. apply skipn_past. lia.
Qed.

(** X16: the requests [draw] makes for the arcs, or the points, of one
    series send every item once and in order: with a block size above zero,
    and the size and the block together within the range of the 32-bit
    counter, the loop ends (every fuel above the number of items is enough),
    the requests put end to end are the items, and each request holds at
    least one item and at most a block. *)
Theorem draw_batches_cover (block : Z) (items : list A) (fuel : nat) :
  (0 < block)%Z ->
  (Z.of_nat (List.length items) + block <= 2 ^ 32)%Z ->
  (List.length items < fuel)%nat ->
  exists requests,
    draw_batches fuel block items 0 = Some requests
    /\ List.concat requests = items
    /\ Forall (fun r => (0 < Z.of_nat (List.length r) <= block)%Z) requests.
Proof.
  intros Hb Hs Hf. destruct fuel as [|fuel]; [lia|].
  destruct (draw_batches_from block items fuel 0 Hb Hs) as (r & E & C & F);
    [lia|lia|].
  exists r. split; [exact E|]. split; [exact C|exact F].
Qed.

(** With a block size of zero and something to send, the counter never
    moves: no number of passes ends the loop. *)
Lemma draw_batches_zero_block (items : list A) (fuel : nat) :
  items <> [] -> draw_batches fuel 0 items 0 = None.
Proof.
  intros Hne. induction fuel as [|fuel IH]; [reflexivity|].
  cbn [draw_batches]. cbv zeta.
  replace (0 <? Z.of_nat (List.length items))%Z with true.
  - change ((0 + 0) mod 2 ^ 32)%Z with 0%Z. rewrite IH. reflexivity.
  - symmetry. apply Z.ltb_lt. destruct items; [contradiction|].
    cbn [List.length]. lia.
Qed.

End Batches.

(** Ten items in blocks of four: requests of four, four and two. *)
Lemma draw_batches_cover_witness :
  (0 < 4)%Z
  /\ (Z.of_nat (List.length (seq 0 10)) + 4 <= 2 ^ 32)%Z
  /\ (List.length (seq 0 10) < 11)%nat
  /\ draw_batches 11 4 (seq 0 10) 0
     = Some [[0; 1; 2; 3]; [4; 5; 6; 7]; [8; 9]]
  /\ exists requests,
       draw_batches 11 4 (seq 0 10) 0 = Some requests
       /\ List.concat requests = seq 0 10
       /\ Forall (fun r => (0 < Z.of_nat (List.length r) <= 4)%Z) requests.
Proof.
  assert (Hb : (0 < 4)%Z) by lia.
  assert (Hs : (Z.of_nat (List.length (seq 0 10)) + 4 <= 2 ^ 32)%Z)
    by (vm_compute; discriminate).
  assert (Hf : (List.length (seq 0 10) < 11)%nat) by (cbn; lia).
  split; [exact Hb|]. split; [exact Hs|]. split; [exact Hf|].
  split; [vm_compute; reflexivity|].
  exact (draw_batches_cover nat 4 (seq 0 10) 11 Hb Hs Hf).
Defined.
(* ================================================================== *)
(** * Which axes a click acts on *)
(* ================================================================== *)

Lemma quot_nonneg_bounds (a b : Z) :
  (0 < b)%Z -> (0 <= a)%Z ->
  (0 <= Z.quot a b /\ b * Z.quot a b <= a < b * Z.quot a b + b)%Z.
Proof.
  intros Hb Ha. pose proof (Z.quot_rem' a b) as E.
  pose proof (Z.rem_bound_pos a b Ha Hb) as R.
  pose proof (Z.quot_pos a b Ha Hb) as Q. lia.
Qed.

Lemma quot_nonpos_bounds (a b : Z) :
  (0 < b)%Z -> (a <= 0)%Z ->
  (Z.quot a b <= 0 /\ b * Z.quot a b - b < a <= b * Z.quot a b)%Z.
Proof.
  intros Hb Ha. pose proof (Z.quot_rem' a b) as E.
  pose proof (Z.rem_bound_pos_neg a b Hb Ha) as R.
  assert (Q : (Z.quot a b <= 0)%Z).
  { rewrite <- (Z.opp_involutive a), Z.quot_opp_l by lia.
    pose proof (Z.quot_pos (- a) b ltac:(lia) Hb). lia. }
  lia.
Qed.

Section Quadrant.

Variables xl xh yl yh : Z.
Hypothesis Hx : (xl < xh)%Z.
Hypothesis Hy : (yl < yh)%Z.

(** Left of the plot, between its top and its bottom: quadrant 1. *)
Lemma get_quadrant_left (sz : PointT Z) (i j : bool) (x y : Z) :
  (x < xl)%Z -> (yl < y < yh)%Z ->
  get_quadrant
    (mkWin (mkPoint (mkIBound xl xh (xh - xl)) (mkIBound yl yh (yh - yl))) sz i j)
    (mkPoint x y) = 1%Z.
Proof.
  intros X Y. unfold get_quadrant.
  cbn [bounds_at bounds pt_at pt_x pt_y b_low b_high].
  destruct (quot_nonneg_bounds ((x - xl) * (yl - yh)) (xh - xl)) as (P & _);
    [lia|nia|].
  destruct (quot_nonpos_bounds ((x - xl) * (yh - yl)) (xh - xl)) as (N & _);
    [lia|nia|].
  replace (yh + Z.quot ((x - xl) * (yl - yh)) (xh - xl) <? y)%Z with false
    by (symmetry; apply Z.ltb_ge; lia).
  replace (yl + Z.quot ((x - xl) * (yh - yl)) (xh - xl) <? y)%Z with true
    by (symmetry; apply Z.ltb_lt; lia).
  reflexivity.
Qed.

(** Right of the plot, between its top and its bottom: quadrant 3. *)
Lemma get_quadrant_right (sz : PointT Z) (i j : bool) (x y : Z) :
  (xh < x)%Z -> (yl < y < yh)%Z ->
  get_quadrant
    (mkWin (mkPoint (mkIBound xl xh (xh - xl)) (mkIBound yl yh (yh - yl))) sz i j)
    (mkPoint x y) = 3%Z.
Proof.
  intros X Y. unfold get_quadrant.
  cbn [bounds_at bounds pt_at pt_x pt_y b_low b_high].
  destruct (quot_nonpos_bounds ((x - xl) * (yl - yh)) (xh - xl)) as (_ & N);
    [lia|nia|].
  destruct (quot_nonneg_bounds ((x - xl) * (yh - yl)) (xh - xl)) as (_ & P);
    [lia|nia|].
  replace (yh + Z.quot ((x - xl) * (yl - yh)) (xh - xl) <? y)%Z with true
    by (symmetry; apply Z.ltb_lt; nia).
  replace (yl + Z.quot ((x - xl) * (yh - yl)) (xh - xl) <? y)%Z with false
    by (symmetry; apply Z.ltb_ge; nia).
  reflexivity.
Qed.

(** Above the plot, between its left and its right: quadrant 2. *)
Lemma get_quadrant_above (sz : PointT Z) (i j : bool) (x y : Z) :
  (xl < x < xh)%Z -> (y < yl)%Z ->
  get_quadrant
    (mkWin (mkPoint (mkIBound xl xh (xh - xl)) (mkIBound yl yh (yh - yl))) sz i j)
    (mkPoint x y) = 2%Z.
Proof.
  intros X Y. unfold get_quadrant.
  cbn [bounds_at bounds pt_at pt_x pt_y b_low b_high].
  destruct (quot_nonpos_bounds ((x - xl) * (yl - yh)) (xh - xl)) as (_ & N);
    [lia|nia|].
  destruct (quot_nonneg_bounds ((x - xl) * (yh - yl)) (xh - xl)) as (P & _);
    [lia|nia|].
  replace (yh + Z.quot ((x - xl) * (yl - yh)) (xh - xl) <? y)%Z with false
    by (symmetry; apply Z.ltb_ge; nia).
  replace (yl + Z.quot ((x - xl) * (yh - yl)) (xh - xl) <? y)%Z with false
    by (symmetry; apply Z.ltb_ge; lia).
  reflexivity.
Qed.

(** Below the plot, between its left and its right: quadrant 0. *)
Lemma get_quadrant_below (sz : PointT Z) (i j : bool) (x y : Z) :
  (xl < x < xh)%Z -> (yh < y)%Z ->
  get_quadrant
    (mkWin (mkPoint (mkIBound xl xh (xh - xl)) (mkIBound yl yh (yh - yl))) sz i j)
    (mkPoint x y) = 0%Z.
Proof.
  intros X Y. unfold get_quadrant.
  cbn [bounds_at bounds pt_at pt_x pt_y b_low b_high].
  destruct (quot_nonpos_bounds ((x - xl) * (yl - yh)) (xh - xl)) as (N & _);
    [lia|nia|].
  destruct (quot_nonneg_bounds ((x - xl) * (yh - yl)) (xh - xl)) as (_ & P);
    [lia|nia|].
  replace (yh + Z.quot ((x - xl) * (yl - yh)) (xh - xl) <? y)%Z with true
    by (symmetry; apply Z.ltb_lt; lia).
  replace (yl + Z.quot ((x - xl) * (yh - yl)) (xh - xl) <? y)%Z with true
    by (symmetry; apply Z.ltb_lt; nia).
  reflexivity.
Qed.

End Quadrant.

Section AffectedAxes.

Context {D : Type} `{Double D} `{DoubleSqrt D} `{Utility D}.

(** X17: which axes a click acts on, by where it falls.  With plot bounds
    of positive extent: a click strictly inside the plot acts on both axes;
    a click left or right of the plot (between its top and bottom) acts on
    the y axis only; a click above or below the plot (between its left and
    right) acts on the x axis only. *)
Theorem click_axes_by_region (g : X11Graph D) :
  let bx := bounds_at (win g) false in
  let by_ := bounds_at (win g) true in
  let x := pt_x (click_point (click g)) in
  let y := pt_y (click_point (click g)) in
  (b_low bx < b_high bx)%Z -> (b_low by_ < b_high by_)%Z ->
  (in_bounds (win g) (click_point (click g)) = true ->
   affected g false = true /\ affected g true = true)
  /\ ((b_low by_ < y < b_high by_)%Z -> (x < b_low bx \/ b_high bx < x)%Z ->
      in_bounds (win g) (click_point (click g)) = false
      /\ affected g false = false /\ affected g true = true)
  /\ ((b_low bx < x < b_high bx)%Z -> (y < b_low by_ \/ b_high by_ < y)%Z ->
      in_bounds (win g) (click_point (click g)) = false
      /\ affected g false = true /\ affected g true = false).
Proof.
  cbv zeta. intros Hx Hy. unfold affected.
  destruct (win g) as [[[xl xh xe] [yl yh ye]] sz i j] eqn:Ew.
  destruct (click_point (click g)) as [x y] eqn:Ec.
  cbn [bounds_at bounds pt_at pt_x pt_y b_low b_high] in *.
  assert (Q : forall e1 e2 p,
             get_quadrant (mkWin (mkPoint (mkIBound xl xh e1) (mkIBound yl yh e2))
                                 sz i j) p
             = get_quadrant (mkWin (mkPoint (mkIBound xl xh (xh - xl))
                                            (mkIBound yl yh (yh - yl))) sz i j) p)
    by reflexivity.
  assert (B : in_bounds (mkWin (mkPoint (mkIBound xl xh xe) (mkIBound yl yh ye))
                               sz i j) (mkPoint x y)
              = ((xl <? x) && (x <? xh) && (yl <? y) && (y <? yh))%Z)
    by reflexivity.
  rewrite B, Q. split; [|split].
  - intros ->. split; reflexivity.
  - intros Y X.
    assert (Bf : ((xl <? x) && (x <? xh) && (yl <? y) && (y <? yh))%Z = false).
    { destruct X as [X|X].
      - replace (xl <? x)%Z with false by (symmetry; apply Z.ltb_ge; lia).
        reflexivity.
      - replace (x <? xh)%Z with false by (symmetry; apply Z.ltb_ge; lia).
        rewrite andb_false_r. reflexivity. }
    rewrite Bf. split; [reflexivity|].
    destruct X as [X|X].
    + rewrite (get_quadrant_left xl xh yl yh Hx Hy sz i j x y X Y).
      split; reflexivity.
    + rewrite (get_quadrant_right xl xh yl yh Hx Hy sz i j x y X Y).
      split; reflexivity.
  - intros X Y.
    assert (Bf : ((xl <? x) && (x <? xh) && (yl <? y) && (y <? yh))%Z = false).
    { destruct Y as [Y|Y].
      - replace (yl <? y)%Z with false by (symmetry; apply Z.ltb_ge; lia).
        rewrite andb_false_r. reflexivity.
      - replace (y <? yh)%Z with false by (symmetry; apply Z.ltb_ge; lia).
        rewrite andb_false_r. reflexivity. }
    rewrite Bf. split; [reflexivity|].
    destruct Y as [Y|Y].
    + rewrite (get_quadrant_above xl xh yl yh Hx Hy sz i j x y X Y).
      split; reflexivity.
    + rewrite (get_quadrant_below xl xh yl yh Hx Hy sz i j x y X Y).
      split; reflexivity.
Qed.

End AffectedAxes.

(** A press at (10, 360), left of the plot, whose bounds start at 36. *)
Lemma click_axes_by_region_witness :
  let g := margin_scenario in
  (b_low (bounds_at (win g) false) < b_high (bounds_at (win g) false))%Z
  /\ (b_low (bounds_at (win g) true) < b_high (bounds_at (win g) true))%Z
  /\ (b_low (bounds_at (win g) true) < pt_y (click_point (click g))
      < b_high (bounds_at (win g) true))%Z
  /\ (pt_x (click_point (click g)) < b_low (bounds_at (win g) false))%Z
  /\ in_bounds (win g) (click_point (click g)) = false
  /\ affected g false = false /\ affected g true = true.
Proof.
  cbv zeta.
  assert (Hx : (b_low (bounds_at (win margin_scenario) false)
                < b_high (bounds_at (win margin_scenario) false))%Z)
    by (vm_compute; reflexivity).
  assert (Hy : (b_low (bounds_at (win margin_scenario) true)
                < b_high (bounds_at (win margin_scenario) true))%Z)
    by (vm_compute; reflexivity).
  assert (Y : (b_low (bounds_at (win margin_scenario) true)
               < pt_y (click_point (click margin_scenario))
               < b_high (bounds_at (win margin_scenario) true))%Z)
    by (split; vm_compute; reflexivity).
  assert (X : (pt_x (click_point (click margin_scenario))
               < b_low (bounds_at (win margin_scenario) false))%Z)
    by (vm_compute; reflexivity).
  split; [exact Hx|]. split; [exact Hy|]. split; [exact Y|]. split; [exact X|].
  exact (proj1 (proj2 (click_axes_by_region (D:=float) margin_scenario Hx Hy))
           Y (or_introl X)).
Defined.

(* ================================================================== *)
(** * A click without drag: the bounds it installs *)
(* ================================================================== *)

Section ClickZoomBounds.

Context {D : Type} `{Double D} `{DoubleSqrt D} `{Utility D}.
Local Open Scope dbl_scope.




Lemma click_axis_scale (g : X11Graph D) (y : bool) :
  scale (click_axis g y) = scale g.
Proof.
  unfold click_axis. destruct (affected g y); cbn [negb]; [|reflexivity].
  unfold set_range. destruct (range_ok _ _ _ _); reflexivity.
Qed.


End ClickZoomBounds.


